(** * fetch_current_season.py: a shallow embedding and its verified properties

    The script fetches two tables of NBA team statistics, joins them on the
    team identifier, sorts the joined rows by team name and writes them to a
    CSV file.  This development embeds the script function by function
    ([fetch_standings], [fetch_advanced_stats], [build_rows], [write_csv],
    [preview], [main]) together with the parts of the Python runtime the
    script relies on (strings, binary64 floats, insertion-ordered dicts,
    [list.sort], [csv.DictWriter], [print], exceptions and [sys.exit]). *)

From Stdlib Require Import ZArith Ascii String List SpecFloat Lia.
From stdpp Require Import base option list strings pretty gmap sorting.

(** ** Python strings

    A Python [str] is modelled by its UTF-8 encoding, a Rocq [string] of
    bytes.  Comparing two UTF-8 encodings byte by byte orders them as Python
    orders the strings (by code point), and the output file is opened with
    [encoding="utf-8"], so file contents are these bytes. *)

(** [a < b] on [str]: lexicographic, a proper prefix comes first. *)
Definition str_lt (a b : string) : bool := String.ltb a b.

(** A byte of the form [10xxxxxx] continues a multi-byte character. *)
Definition is_continuation_byte (c : ascii) : bool :=
  match c with Ascii _ _ _ _ _ _ b6 b7 => b7 && negb b6 end.

(** [len(s)]: the number of characters (code points). *)
Fixpoint str_len (s : string) : nat :=
  match s with
  | EmptyString => 0
  | String c s' => (if is_continuation_byte c then 0 else 1) + str_len s'
  end.

(** [s * n] *)
Fixpoint str_repeat (s : string) (n : nat) : string :=
  match n with
  | O => ""
  | S n' => s +:+ str_repeat s n'
  end.

(** [format(s, "<w")] and [format(s, ">w")]: pad with spaces to width [w]. *)
Definition str_ljust (s : string) (w : nat) : string :=
  s +:+ str_repeat " " (w - str_len s).
Definition str_rjust (s : string) (w : nat) : string :=
  str_repeat " " (w - str_len s) +:+ s.

(** [sep.join(l)] *)
Fixpoint str_join (sep : string) (l : list string) : string :=
  match l with
  | [] => ""
  | [s] => s
  | s :: l' => s +:+ sep +:+ str_join sep l'
  end.

(** [str(n)] for an [int]. *)
Definition str_of_int (n : Z) : string := pretty n.

(** [c in s] for a one-character [c]. *)
Fixpoint str_contains (c : ascii) (s : string) : bool :=
  match s with
  | EmptyString => false
  | String c' s' => if Ascii.eqb c c' then true else str_contains c s'
  end.

(** ** Exceptions

    [Exception cls msg] is an instance of a subclass [cls] of Python's
    [Exception] whose [str()] is [msg]; [SystemExit code] is what
    [sys.exit(code)] raises. *)
Inductive raised : Type :=
  | Exception (cls msg : string)
  | SystemExit (code : Z).

(** ** Python floats: IEEE 754 binary64

    Floats are the binary64 values of the standard library's [SpecFloat],
    computed with exact integer arithmetic. *)
Definition float : Type := spec_float.
Definition prec : Z := 53.
Definition emax : Z := 1024.

Definition float_eqb (x y : float) : bool :=
  match x, y with
  | S754_zero s1, S754_zero s2 => Bool.eqb s1 s2
  | S754_infinity s1, S754_infinity s2 => Bool.eqb s1 s2
  | S754_nan, S754_nan => true
  | S754_finite s1 m1 e1, S754_finite s2 m2 e2 =>
      Bool.eqb s1 s2 && Pos.eqb m1 m2 && Z.eqb e1 e2
  | _, _ => false
  end.

(** The binary64 value nearest to [a / b] (ties to even), with sign [s];
    [0 <= a] and [0 < b]. *)
Definition float_of_ratio (s : bool) (a b : Z) : float :=
  let '(m, e, l) := SFdiv_core_binary prec emax a 0 b 0 in
  binary_round_aux prec emax s m e l.

(** The binary64 value nearest to [c * 10^e10]: what reading a decimal
    literal such as [0.6] gives ([c = 6], [e10 = -1]). *)
Definition float_of_decimal (s : bool) (c e10 : Z) : float :=
  if (0 <=? e10)%Z then float_of_ratio s (c * 10 ^ e10) 1
  else float_of_ratio s c (10 ^ (- e10)).

Definition float_zero : float := S754_zero false.

(** The exact value [m * 2^e] of a finite float as a fraction. *)
Definition float_frac (m : positive) (e : Z) : Z * Z :=
  if (0 <=? e)%Z then (Zpos m * 2 ^ e, 1)%Z else (Zpos m, 2 ^ (- e))%Z.

(** [a / b] on [int]s: true division.  CPython returns the correctly rounded
    quotient, raises [ZeroDivisionError] for a zero divisor and
    [OverflowError] when the quotient is too large for a float. *)
Definition int_truediv (a b : Z) : raised + float :=
  if (b =? 0)%Z then inl (Exception "ZeroDivisionError" "division by zero")
  else
    match float_of_ratio (xorb (a <? 0)%Z (b <? 0)%Z) (Z.abs a) (Z.abs b) with
    | S754_infinity _ =>
        inl (Exception "OverflowError"
               "integer division result too large for a float")
    | q => inr q
    end.

(** The integer nearest to [n / d], ties to the even one ([0 < d]). *)
Definition round_half_even (n d : Z) : Z :=
  let q := (n / d)%Z in
  match (2 * (n mod d) ?= d)%Z with
  | Lt => q
  | Gt => (q + 1)%Z
  | Eq => if Z.even q then q else (q + 1)%Z
  end.

Definition NDIGITS_MAX : Z := 323.
Definition NDIGITS_MIN : Z := -308.

(** [round(x, ndigits)] on a float: the value of [x] is rounded exactly to
    [ndigits] decimals (ties to even) and the decimal is read back as a
    float. *)
Definition float_round (x : float) (ndigits : Z) : raised + float :=
  match x with
  | S754_finite s m e =>
      if (ndigits >? NDIGITS_MAX)%Z then inr x
      else if (ndigits <? NDIGITS_MIN)%Z then inr (S754_zero s)
      else
        let '(num, den) := float_frac m e in
        let k :=
          if (0 <=? ndigits)%Z then round_half_even (num * 10 ^ ndigits) den
          else round_half_even num (den * 10 ^ (- ndigits)) in
        match float_of_decimal s k (- ndigits) with
        | S754_infinity _ =>
            inl (Exception "OverflowError"
                   "rounded value too large to represent")
        | r => inr r
        end
  | _ => inr x
  end.

(** *** [repr] of a float

    [repr(x)] (also [str(x)] and [format(x, "")]) prints the shortest decimal
    digit string that reads back as [x], the one nearest to [x] when there
    are several. *)

(** [num/den < 10^d] *)
Definition below_pow10 (num den d : Z) : bool :=
  if (0 <=? d)%Z then (num <? den * 10 ^ d)%Z
  else (num * 10 ^ (- d) <? den)%Z.

(** The least [d' >= d] with [num/den < 10^d']. *)
Fixpoint find_decpt (fuel : nat) (num den d : Z) : Z :=
  match fuel with
  | O => d
  | S fuel' =>
      if below_pow10 num den d then d
      else find_decpt fuel' num den (d + 1)
  end.

(** [num/den * 10^sc] as a fraction. *)
Definition scale10 (num den sc : Z) : Z * Z :=
  if (0 <=? sc)%Z then (num * 10 ^ sc, den)%Z
  else (num, den * 10 ^ (- sc))%Z.

(** The two decimals [c * 10^-sc] next to [x] are [lo] and [lo + 1]; the
    result is the one nearest to [x] among those that read back as [x]. *)
Definition digits_at (x : float) (num den sc : Z) : option Z :=
  let '(n, d) := scale10 num den sc in
  let lo := (n / d)%Z in
  let hi := (lo + 1)%Z in
  let lo_ok := float_eqb (float_of_decimal false lo (- sc)) x in
  let hi_ok := float_eqb (float_of_decimal false hi (- sc)) x in
  let nearest := round_half_even n d in
  if lo_ok && hi_ok then Some nearest
  else if lo_ok then Some lo
  else if hi_ok then Some hi
  else None.

(** Try 1, 2, ... significant digits; 17 always suffice for binary64. *)
Fixpoint shortest_digits (fuel : nat) (x : float) (num den decpt ndig : Z)
  : Z * Z :=
  match fuel with
  | O =>
      let '(n, d) := scale10 num den (ndig - decpt) in
      (round_half_even n d, ndig - decpt)%Z
  | S fuel' =>
      match digits_at x num den (ndig - decpt) with
      | Some c => (c, ndig - decpt)%Z
      | None => shortest_digits fuel' x num den decpt (ndig + 1)
      end
  end.

Fixpoint strip_zeros_rev (s : string) : string :=
  match s with
  | String "0" s' => strip_zeros_rev s'
  | _ => s
  end.

(** Remove the trailing zeros of a digit string. *)
Definition strip_trailing_zeros (s : string) : string :=
  String.rev (strip_zeros_rev (String.rev s)).

(** The exponent as C's ["%+.02d"] prints it. *)
Definition format_exp (e : Z) : string :=
  let a := pretty (Z.abs e) in
  (if (e <? 0)%Z then "-" else "+") +:+
  (if (String.length a <? 2)%nat then "0" +:+ a else a).

(** Lay out a digit string with its decimal point position [decpt], the way
    CPython does for [repr]. *)
Definition format_repr_digits (digits : string) (decpt : Z) : string :=
  let len := Z.of_nat (String.length digits) in
  if ((decpt <=? -4) || (16 <? decpt))%Z then
    (String.substring 0 1 digits) +:+
    (if (1 <? len)%Z
     then "." +:+ String.substring 1 (String.length digits - 1) digits
     else "") +:+
    "e" +:+ format_exp (decpt - 1)
  else if (decpt <=? 0)%Z then
    "0." +:+ str_repeat "0" (Z.to_nat (- decpt)) +:+ digits
  else if (decpt <? len)%Z then
    String.substring 0 (Z.to_nat decpt) digits +:+ "." +:+
    String.substring (Z.to_nat decpt) (String.length digits - Z.to_nat decpt)
      digits
  else
    digits +:+ str_repeat "0" (Z.to_nat (decpt - len)) +:+ ".0".

Definition float_repr (x : float) : string :=
  match x with
  | S754_zero s => if s then "-0.0" else "0.0"
  | S754_infinity s => if s then "-inf" else "inf"
  | S754_nan => "nan"
  | S754_finite s m e =>
      let '(num, den) := float_frac m e in
      let decpt := find_decpt 640 num den (-324) in
      let '(c, sc) :=
        shortest_digits 16 (S754_finite false m e) num den decpt 1 in
      let all := pretty c in
      (if s then "-" else "") +:+
      format_repr_digits (strip_trailing_zeros all)
        (Z.of_nat (String.length all) - sc)
  end.

(** ** Python dicts

    A [dict] keeps its items in insertion order and holds each key once:
    it is the list of its items, and [dict_wf] says the keys are distinct.
    Every dict built by [dict_set] from the empty dict is well formed. *)
Abbreviation dict V := (list (string * V)).

Definition dict_keys {V} (d : dict V) : list string := d.*1.

Definition dict_wf {V} (d : dict V) : Prop := NoDup (dict_keys d).

(** [len(d)] *)
Definition dict_len {V} (d : dict V) : nat := length d.

(** [k in d] *)
Definition dict_contains {V} (k : string) (d : dict V) : bool :=
  bool_decide (k ∈ dict_keys d).

(** [d.get(k)] *)
Fixpoint dict_get {V} (k : string) (d : dict V) : option V :=
  match d with
  | [] => None
  | (k', v) :: d' => if decide (k = k') then Some v else dict_get k d'
  end.

(** [d[k]]: raises [KeyError] for a missing key (the message is the key's
    [repr], written here for keys without quotes or escapes). *)
Definition dict_getitem {V} (k : string) (d : dict V) : raised + V :=
  match dict_get k d with
  | Some v => inr v
  | None => inl (Exception "KeyError" ("'" +:+ k +:+ "'"))
  end.

(** [d[k] = v]: an existing key keeps its position, a new one goes last. *)
Fixpoint dict_set {V} (k : string) (v : V) (d : dict V) : dict V :=
  match d with
  | [] => [(k, v)]
  | (k', v') :: d' =>
      if decide (k = k') then (k, v) :: d' else (k', v') :: dict_set k v d'
  end.

(** ** [list.sort(key=...)]

    Python's sort is stable and compares keys with [<] only.  A sorted,
    stable rearrangement of a list is unique, so it is computed here by
    stable insertion: an element goes before the first element whose key is
    not smaller than its own. *)
Section Sort.
Context {A K : Type} (key : A → K) (lt : K → K → bool).

Fixpoint sort_insert (x : A) (l : list A) : list A :=
  match l with
  | [] => [x]
  | y :: l' =>
      if lt (key y) (key x) then y :: sort_insert x l' else x :: y :: l'
  end.

Fixpoint list_sort (l : list A) : list A :=
  match l with
  | [] => []
  | x :: l' => sort_insert x (list_sort l')
  end.

End Sort.

(** ** The world the script runs in, and the monad of its effects

    [stdout] holds the text of every [print] call in order, [files] the
    contents of the file system, and [api_calls] the endpoints requested so
    far. *)
Record world : Type := World {
  stdout : list string;
  files : gmap string string;
  api_calls : list string
}.

Definition result (A : Type) : Type := raised + A.

#[export] Instance result_ret : MRet result := λ A x, inr x.
#[export] Instance result_bind : MBind result := λ A B f r,
  match r with
  | inl e => inl e
  | inr x => f x
  end.

#[export] Instance result_fmap : FMap result := λ A B f r,
  match r with
  | inl e => inl e
  | inr x => inr (f x)
  end.

Definition M (A : Type) : Type := world → result A * world.

#[export] Instance M_ret : MRet M := λ A x w, (inr x, w).
#[export] Instance M_bind : MBind M := λ A B f m w,
  match m w with
  | (inl e, w') => (inl e, w')
  | (inr x, w') => f x w'
  end.

(** A pure computation that may raise. *)
Definition lift {A} (r : result A) : M A := λ w, (r, w).

Definition raise {A} (e : raised) : M A := λ w, (inl e, w).

(** [sys.exit(code)] *)
Definition sys_exit {A} (code : Z) : M A := raise (SystemExit code).

(** [print(s)] *)
Definition print (s : string) : M unit := λ w,
  (inr (), World (stdout w ++ [s]) (files w) (api_calls w)).

(** [time.sleep(seconds)]: the passage of time is not part of [world]. *)
Definition time_sleep (seconds : float) : M unit := mret ().

(** [try: body  except Exception as e: handler(str(e))].  [SystemExit] is
    not an [Exception] and passes through. *)
Definition try_except_Exception {A} (body : M A) (handler : string → M A)
  : M A := λ w,
  match body w with
  | (inl (Exception _ msg), w') => handler msg w'
  | r => r
  end.

(** [open(path, "w", newline="", encoding="utf-8")] creates or truncates the
    file; [f.write(s)] appends to it. *)
Definition file_open_w (path : string) : M unit := λ w,
  (inr (), World (stdout w) (<[path := ""]> (files w)) (api_calls w)).

Definition file_write (path s : string) : M unit := λ w,
  (inr (),
   World (stdout w)
         (<[path := default "" (files w !! path) +:+ s]> (files w))
         (api_calls w)).

(** ** The remote endpoints

    What a request to an endpoint gives is fixed by the environment: either
    the rows of the first data frame of the response, or a failure (no
    connection, timeout, malformed response), which the client library
    raises as an instance of [Exception]. *)
Record api_error : Type := ApiError { err_cls : string; err_msg : string }.

Record StandingsRow : Type := {
  TEAMID : Z;
  TEAMNAME : string;
  WINS : Z;
  LOSSES : Z
}.

Record TeamStatsRow : Type := {
  df_TEAM_ID : Z;
  df_OFF_RATING : float;
  df_DEF_RATING : float;
  df_NET_RATING : float;
  df_AST_PCT : float;
  df_REB_PCT : float;
  df_TS_PCT : float;
  df_PACE : float
}.

Record nba_api : Type := {
  LeagueStandingsV3 : api_error + list StandingsRow;
  LeagueDashTeamStats : api_error + list TeamStatsRow
}.

Definition call_endpoint {A} (name : string) (response : api_error + A)
  : M A := λ w,
  let w' := World (stdout w) (files w) (api_calls w ++ [name]) in
  match response with
  | inl err => (inl (Exception (err_cls err) (err_msg err)), w')
  | inr x => (inr x, w')
  end.

(** ** The script *)

Definition LF : string := String "010"%char "".
Definition CR : string := String "013"%char "".

(** *** Config *)
Definition SEASON : string := "2025-26".
Definition SEASON_TYPE : string := "Regular Season".
Definition OUTPUT_FILE : string := "current_season.csv".
Definition REQUEST_DELAY : float := float_of_decimal false 10 (-1).

Definition CSV_COLUMNS : list string :=
  [ "TEAM_ID"; "TEAM_NAME"; "W_PCT";
    "OFF_RATING"; "DEF_RATING"; "NET_RATING";
    "AST_PCT"; "REB_PCT"; "TS_PCT"; "PACE";
    "Season" ].

(** *** The records the functions exchange *)

(** A value of [fetch_standings]'s dict: [{TEAM_NAME, W_PCT}]. *)
Record StandingRecord : Type := {
  st_TEAM_NAME : string;
  st_W_PCT : float
}.

(** A value of [fetch_advanced_stats]'s dict. *)
Record AdvancedRecord : Type := {
  adv_OFF_RATING : float;
  adv_DEF_RATING : float;
  adv_NET_RATING : float;
  adv_AST_PCT : float;
  adv_REB_PCT : float;
  adv_TS_PCT : float;
  adv_PACE : float
}.

(** A row of the output, the dict [build_rows] appends. *)
Record MergedRow : Type := {
  TEAM_ID : string;
  TEAM_NAME : string;
  W_PCT : float;
  OFF_RATING : float;
  DEF_RATING : float;
  NET_RATING : float;
  AST_PCT : float;
  REB_PCT : float;
  TS_PCT : float;
  PACE : float;
  Season : string
}.

(** The values a row holds: strings and floats. *)
Inductive value : Type :=
  | VStr (s : string)
  | VFloat (x : float).

(** The keys of a row dict, in the order of the dict literal. *)
Definition row_keys (r : MergedRow) : list string :=
  [ "TEAM_ID"; "TEAM_NAME"; "W_PCT"; "OFF_RATING"; "DEF_RATING";
    "NET_RATING"; "AST_PCT"; "REB_PCT"; "TS_PCT"; "PACE"; "Season" ].

(** [r.get(key)] *)
Definition row_get (r : MergedRow) (key : string) : option value :=
  if decide (key = "TEAM_ID") then Some (VStr (TEAM_ID r))
  else if decide (key = "TEAM_NAME") then Some (VStr (TEAM_NAME r))
  else if decide (key = "W_PCT") then Some (VFloat (W_PCT r))
  else if decide (key = "OFF_RATING") then Some (VFloat (OFF_RATING r))
  else if decide (key = "DEF_RATING") then Some (VFloat (DEF_RATING r))
  else if decide (key = "NET_RATING") then Some (VFloat (NET_RATING r))
  else if decide (key = "AST_PCT") then Some (VFloat (AST_PCT r))
  else if decide (key = "REB_PCT") then Some (VFloat (REB_PCT r))
  else if decide (key = "TS_PCT") then Some (VFloat (TS_PCT r))
  else if decide (key = "PACE") then Some (VFloat (PACE r))
  else if decide (key = "Season") then Some (VStr (Season r))
  else None.

(** *** fetch_standings *)

(** [round(wins / (wins + losses), 3) if (wins + losses) > 0 else 0.0] *)
Definition w_pct (wins losses : Z) : result float :=
  if (wins + losses >? 0)%Z then
    q ← int_truediv wins (wins + losses);
    float_round q 3
  else mret float_zero.

(** The body of [for _, row in df.iterrows()], from the rows still to visit
    and the dict built so far. *)
Fixpoint fetch_standings_loop (df : list StandingsRow)
    (standings : dict StandingRecord) : result (dict StandingRecord) :=
  match df with
  | [] => mret standings
  | row :: df' =>
      let tid := str_of_int (TEAMID row) in
      let wins := WINS row in
      let losses := LOSSES row in
      w ← w_pct wins losses;
      fetch_standings_loop df'
        (dict_set tid {| st_TEAM_NAME := TEAMNAME row; st_W_PCT := w |}
           standings)
  end.

Definition fetch_standings (api : nba_api) : M (dict StandingRecord) :=
  print ("  [1/2] Fetching standings for " +:+ SEASON +:+ "...") ;;
  time_sleep REQUEST_DELAY ;;
  df ← call_endpoint "leaguestandingsv3" (LeagueStandingsV3 api);
  standings ← lift (fetch_standings_loop df []);
  print ("  ✓ Standings fetched — " +:+
         str_of_int (Z.of_nat (dict_len standings)) +:+ " teams") ;;
  mret standings.

(** *** fetch_advanced_stats *)

Fixpoint fetch_advanced_stats_loop (df : list TeamStatsRow)
    (stats : dict AdvancedRecord) : result (dict AdvancedRecord) :=
  match df with
  | [] => mret stats
  | row :: df' =>
      let tid := str_of_int (df_TEAM_ID row) in
      off ← float_round (df_OFF_RATING row) 1;
      def ← float_round (df_DEF_RATING row) 1;
      net ← float_round (df_NET_RATING row) 1;
      ast ← float_round (df_AST_PCT row) 3;
      reb ← float_round (df_REB_PCT row) 3;
      ts ← float_round (df_TS_PCT row) 3;
      pace ← float_round (df_PACE row) 2;
      fetch_advanced_stats_loop df'
        (dict_set tid
           {| adv_OFF_RATING := off; adv_DEF_RATING := def;
              adv_NET_RATING := net; adv_AST_PCT := ast;
              adv_REB_PCT := reb; adv_TS_PCT := ts; adv_PACE := pace |}
           stats)
  end.

Definition fetch_advanced_stats (api : nba_api) : M (dict AdvancedRecord) :=
  print ("  [2/2] Fetching advanced stats for " +:+ SEASON +:+ "...") ;;
  time_sleep REQUEST_DELAY ;;
  df ← call_endpoint "leaguedashteamstats" (LeagueDashTeamStats api);
  stats ← lift (fetch_advanced_stats_loop df []);
  print ("  ✓ Advanced stats fetched — " +:+
         str_of_int (Z.of_nat (dict_len stats)) +:+ " teams") ;;
  mret stats.

(** *** build_rows *)

(** The body of [for tid, s in standings.items()], from the items still to
    visit and the rows appended so far. *)
Fixpoint build_rows_loop (items : list (string * StandingRecord))
    (advanced : dict AdvancedRecord) (rows : list MergedRow)
  : M (list MergedRow) :=
  match items with
  | [] => mret rows
  | (tid, s) :: items' =>
      if negb (dict_contains tid advanced) then
        print ("  ⚠ Skipping " +:+ st_TEAM_NAME s +:+
               " — missing from advanced stats") ;;
        build_rows_loop items' advanced rows
      else
        adv ← lift (dict_getitem tid advanced);
        build_rows_loop items' advanced
          (rows ++
           [ {| TEAM_ID := tid;
                TEAM_NAME := st_TEAM_NAME s;
                W_PCT := st_W_PCT s;
                OFF_RATING := adv_OFF_RATING adv;
                DEF_RATING := adv_DEF_RATING adv;
                NET_RATING := adv_NET_RATING adv;
                AST_PCT := adv_AST_PCT adv;
                REB_PCT := adv_REB_PCT adv;
                TS_PCT := adv_TS_PCT adv;
                PACE := adv_PACE adv;
                Season := SEASON |} ])
  end.

Definition build_rows (standings : dict StandingRecord)
    (advanced : dict AdvancedRecord) : M (list MergedRow) :=
  rows ← build_rows_loop standings advanced [];
  mret (list_sort TEAM_NAME str_lt rows).

(** *** csv.DictWriter (the default "excel" dialect)

    Fields are separated by a comma and records end in CR LF.  A field that
    contains a comma, a quote, CR or LF is put in quotes with its quotes
    doubled; other fields are written as they are. *)
Definition QUOTECHAR : ascii := "034"%char.

Definition csv_special (c : ascii) : bool :=
  Ascii.eqb c "," || Ascii.eqb c QUOTECHAR ||
  Ascii.eqb c "013" || Ascii.eqb c "010".

Fixpoint csv_needs_quotes (s : string) : bool :=
  match s with
  | EmptyString => false
  | String c s' => csv_special c || csv_needs_quotes s'
  end.

Fixpoint csv_double_quotes (s : string) : string :=
  match s with
  | EmptyString => EmptyString
  | String c s' =>
      if Ascii.eqb c QUOTECHAR
      then String QUOTECHAR (String QUOTECHAR (csv_double_quotes s'))
      else String c (csv_double_quotes s')
  end.

Definition csv_field (s : string) : string :=
  if csv_needs_quotes s
  then String QUOTECHAR (csv_double_quotes s) +:+ String QUOTECHAR ""
  else s.

(** The text of one record; a record of a single empty field is written as
    an empty quoted field. *)
Definition csv_record (fields : list string) : string :=
  match fields with
  | [ EmptyString ] => String QUOTECHAR (String QUOTECHAR "")
  | _ => str_join "," (csv_field <$> fields)
  end +:+ CR +:+ LF.

(** A field that is not a string is written as its [str()]. *)
Definition value_str (v : value) : string :=
  match v with
  | VStr s => s
  | VFloat x => float_repr x
  end.

(** [writer.writerow(fields)] on the writer over the file at [path]. *)
Definition csv_writerow (path : string) (fields : list value) : M unit :=
  file_write path (csv_record (value_str <$> fields)).

(** [DictWriter._dict_to_list]: a key outside [fieldnames] is an error
    ([extrasaction="raise"]), a missing one gives [restval], the empty
    string. *)
Definition DictWriter_dict_to_list (fieldnames : list string) (r : MergedRow)
  : result (list value) :=
  match filter (λ k, k ∉ fieldnames) (row_keys r) with
  | [] => mret ((λ key, default (VStr "") (row_get r key)) <$> fieldnames)
  | wrong_fields =>
      inl (Exception "ValueError"
             ("dict contains fields not in fieldnames: " +:+
              str_join ", " ((λ k, "'" +:+ k +:+ "'") <$> wrong_fields)))
  end.

Definition DictWriter_writeheader (path : string) (fieldnames : list string)
  : M unit :=
  csv_writerow path (VStr <$> fieldnames).

Fixpoint DictWriter_writerows (path : string) (fieldnames : list string)
    (rows : list MergedRow) : M unit :=
  match rows with
  | [] => mret ()
  | r :: rows' =>
      fields ← lift (DictWriter_dict_to_list fieldnames r);
      csv_writerow path fields ;;
      DictWriter_writerows path fieldnames rows'
  end.

(** *** write_csv *)
Definition write_csv (rows : list MergedRow) (filepath : string) : M unit :=
  file_open_w filepath ;;
  DictWriter_writeheader filepath CSV_COLUMNS ;;
  DictWriter_writerows filepath CSV_COLUMNS rows ;;
  print ("  ✓ Saved → " +:+ filepath +:+ "  (" +:+
         str_of_int (Z.of_nat (length rows)) +:+ " teams)").

(** *** preview *)

(** [format(x, ">5")] on a float: its [repr], right-aligned. *)
Definition float_rjust5 (x : float) : string := str_rjust (float_repr x) 5.

Fixpoint print_each (lines : list string) : M unit :=
  match lines with
  | [] => mret ()
  | s :: lines' => print s ;; print_each lines'
  end.

Definition preview_line (r : MergedRow) : string :=
  "  " +:+ str_ljust (TEAM_NAME r) 32 +:+ " " +:+ float_rjust5 (W_PCT r) +:+
  "  " +:+ float_rjust5 (NET_RATING r) +:+
  "  " +:+ float_rjust5 (DEF_RATING r) +:+
  "  " +:+ float_rjust5 (PACE r).

Definition preview (rows : list MergedRow) : M unit :=
  print (LF +:+ "  " +:+ str_ljust "TEAM" 32 +:+ " " +:+ str_rjust "W_PCT" 5 +:+
         "  " +:+ str_rjust "NET" 5 +:+ "  " +:+ str_rjust "DEF" 5 +:+
         "  " +:+ str_rjust "PACE" 5) ;;
  print ("  " +:+ str_repeat "─" 55) ;;
  print_each (preview_line <$> take 5 rows) ;;
  if (5 <? length rows)%nat then
    print ("  ... and " +:+ str_of_int (Z.of_nat (length rows) - 5) +:+
           " more teams")
  else mret ().

(** *** main *)

(** [parser.parse_args().output]: the value given to [--output], or the
    default. *)
Definition args_output (cli_output : option string) : string :=
  default OUTPUT_FILE cli_output.

Definition main (api : nba_api) (cli_output : option string) : M unit :=
  let output := args_output cli_output in
  print (LF +:+ str_repeat "─" 60) ;;
  print ("  NBA Stats Fetcher  |  Season: " +:+ SEASON) ;;
  print "  Output columns (features only — no MadePlayoffs)" ;;
  print (str_repeat "─" 60 +:+ LF) ;;
  fetched ← try_except_Exception
    (standings ← fetch_standings api;
     advanced ← fetch_advanced_stats api;
     mret (standings, advanced))
    (λ e,
     print (LF +:+ "  ERROR: NBA API call failed — " +:+ e) ;;
     print "  Possible causes:" ;;
     print "    • No internet connection" ;;
     print "    • Rate limited — wait 60s and retry" ;;
     print "    • Season endpoint not yet available" ;;
     sys_exit 1);
  rows ← build_rows fetched.1 fetched.2;
  (if rows is [] then
     print "  ERROR: No rows produced — check API responses above" ;;
     sys_exit 1
   else mret ()) ;;
  write_csv rows output ;;
  preview rows ;;
  print (LF +:+ "  ✅ " +:+ output +:+
         " is ready to be uploaded to Azure ML for prediction" +:+ LF).

(** The exit status of the process that runs [main()]: 0 when it returns,
    the code of a [SystemExit], 1 for an exception nobody caught. *)
Definition exit_status (r : result unit) : Z :=
  match r with
  | inr _ => 0
  | inl (SystemExit code) => code
  | inl (Exception _ _) => 1
  end.

Definition run_script (api : nba_api) (cli_output : option string) (w : world)
  : Z * world :=
  let '(r, w') := main api cli_output w in (exit_status r, w').

(** ** What the loops compute

    The row a standings item gives when its team has advanced stats, the rows
    of all items in order, and the warnings printed for the others. *)
Definition merge_row (tid : string) (s : StandingRecord) (adv : AdvancedRecord)
  : MergedRow :=
  {| TEAM_ID := tid;
     TEAM_NAME := st_TEAM_NAME s;
     W_PCT := st_W_PCT s;
     OFF_RATING := adv_OFF_RATING adv;
     DEF_RATING := adv_DEF_RATING adv;
     NET_RATING := adv_NET_RATING adv;
     AST_PCT := adv_AST_PCT adv;
     REB_PCT := adv_REB_PCT adv;
     TS_PCT := adv_TS_PCT adv;
     PACE := adv_PACE adv;
     Season := SEASON |}.

Definition join_item (advanced : dict AdvancedRecord)
    (item : string * StandingRecord) : option MergedRow :=
  merge_row item.1 item.2 <$> dict_get item.1 advanced.

Definition joined (standings : dict StandingRecord)
    (advanced : dict AdvancedRecord) : list MergedRow :=
  omap (join_item advanced) standings.

Definition skip_warning (s : StandingRecord) : string :=
  "  ⚠ Skipping " +:+ st_TEAM_NAME s +:+ " — missing from advanced stats".

(** The standings items whose team has no advanced stats. *)
Definition unmatched (standings : dict StandingRecord)
    (advanced : dict AdvancedRecord) : list (string * StandingRecord) :=
  filter (λ item, item.1 ∉ dict_keys advanced) standings.

(** The world after printing [lines]. *)
Definition printed (lines : list string) (w : world) : world :=
  World (stdout w ++ lines) (files w) (api_calls w).

(** [x] comes no later than [y] in the order of their keys. *)
Definition key_le {A} (key : A → string) (x y : A) : Prop :=
  String.le (key x) (key y).

(** Rows ordered by team name. *)
Definition name_le (r1 r2 : MergedRow) : Prop :=
  String.le (TEAM_NAME r1) (TEAM_NAME r2).

(** The fields of a row in the order of the columns. *)
Definition row_fields (r : MergedRow) : list value :=
  [ VStr (TEAM_ID r); VStr (TEAM_NAME r); VFloat (W_PCT r);
    VFloat (OFF_RATING r); VFloat (DEF_RATING r); VFloat (NET_RATING r);
    VFloat (AST_PCT r); VFloat (REB_PCT r); VFloat (TS_PCT r);
    VFloat (PACE r); VStr (Season r) ].

(** The text before the first CR or LF. *)
Fixpoint first_line (s : string) : string :=
  match s with
  | EmptyString => EmptyString
  | String c s' =>
      if Ascii.eqb c "013" || Ascii.eqb c "010" then EmptyString
      else String c (first_line s')
  end.

(** The text of the records [DictWriter.writerows] writes for [rows]. *)
Fixpoint csv_rows_text (rows : list MergedRow) : string :=
  match rows with
  | [] => ""
  | r :: rows' => csv_record (value_str <$> row_fields r) +:+ csv_rows_text rows'
  end.

(** The header line of the output file, without its line terminator. *)
Definition csv_header_text : string :=
  "TEAM_ID,TEAM_NAME,W_PCT,OFF_RATING,DEF_RATING,NET_RATING,AST_PCT,REB_PCT,TS_PCT,PACE,Season".

(** A computation returns [x], or raises [e], from some world. *)
Definition returns {A} (m : M A) (x : A) : Prop :=
  ∃ w w', m w = (inr x, w').
Definition raises {A} (m : M A) (e : raised) : Prop :=
  ∃ w w', m w = (inl e, w').

(** Float literals. *)
Definition float_lit (c e10 : Z) : float := float_of_decimal false c e10.

(** The inputs of the end-to-end example. *)
Definition example_standings : dict StandingRecord :=
  [ ("1", {| st_TEAM_NAME := "Alpha"; st_W_PCT := float_lit 6 (-1) |}) ].

Definition example_advanced : dict AdvancedRecord :=
  [ ("1", {| adv_OFF_RATING := float_lit 1100 (-1);
             adv_DEF_RATING := float_lit 1050 (-1);
             adv_NET_RATING := float_lit 50 (-1);
             adv_AST_PCT := float_lit 2 (-1);
             adv_REB_PCT := float_lit 5 (-1);
             adv_TS_PCT := float_lit 55 (-2);
             adv_PACE := float_lit 980 (-1) |}) ].

Definition empty_world : world := World [] ∅ [].

(** What [main] prints before it fetches, and what its handler prints for a
    failed fetch whose error text is [msg]. *)
Definition banner_lines : list string :=
  [ LF +:+ str_repeat "─" 60;
    "  NBA Stats Fetcher  |  Season: " +:+ SEASON;
    "  Output columns (features only — no MadePlayoffs)";
    str_repeat "─" 60 +:+ LF ].

Definition failure_lines (msg : string) : list string :=
  [ LF +:+ "  ERROR: NBA API call failed — " +:+ msg;
    "  Possible causes:";
    "    • No internet connection";
    "    • Rate limited — wait 60s and retry";
    "    • Season endpoint not yet available" ].

(** A mantissa and exponent whose value is at most [2^c]. *)
Definition below_pow2 (c m e : Z) : Prop :=
  (0 ≤ m ∧ e ≤ c ∧ m ≤ 2 ^ (c - e))%Z.

(** A float that is a zero or finite with magnitude at most [2^c]. *)
Definition float_below_pow2 (c : Z) (x : float) : Prop :=
  match x with
  | S754_zero _ => True
  | S754_finite _ m e => below_pow2 c (Zpos m) e
  | _ => False
  end.

(** Two small mappings: teams 1 and 3 are in both, 2 and 4 in one only. *)
Definition sample_standings : dict StandingRecord :=
  [ ("1", {| st_TEAM_NAME := "Hawks"; st_W_PCT := float_lit 6 (-1) |});
    ("2", {| st_TEAM_NAME := "Celtics"; st_W_PCT := float_lit 5 (-1) |});
    ("3", {| st_TEAM_NAME := "Bulls"; st_W_PCT := float_lit 25 (-2) |}) ].

Definition sample_record (net : float) : AdvancedRecord :=
  {| adv_OFF_RATING := float_lit 1105 (-1);
     adv_DEF_RATING := float_lit 1080 (-1);
     adv_NET_RATING := net;
     adv_AST_PCT := float_lit 613 (-3);
     adv_REB_PCT := float_lit 5 (-1);
     adv_TS_PCT := float_lit 555 (-3);
     adv_PACE := float_lit 9877 (-2) |}.

Definition sample_advanced : dict AdvancedRecord :=
  [ ("3", sample_record (float_lit 25 (-1)));
    ("4", sample_record (float_lit 10 (-1)));
    ("1", sample_record (float_lit 49 (-1))) ].

(** An environment whose only team in the standings has no advanced stats,
    and one whose standings request times out. *)
Definition unmatched_api : nba_api :=
  {| LeagueStandingsV3 :=
       inr [ {| TEAMID := 2; TEAMNAME := "Celtics"; WINS := 1; LOSSES := 1 |} ];
     LeagueDashTeamStats := inr [] |}.

Definition unmatched_standings : dict StandingRecord :=
  [ ("2", {| st_TEAM_NAME := "Celtics"; st_W_PCT := float_lit 5 (-1) |}) ].

Definition timeout_api : nba_api :=
  {| LeagueStandingsV3 := inl (ApiError "ReadTimeout" "Read timed out.");
     LeagueDashTeamStats := inr [] |}.

(** A mantissa and exponent, with the location [l] of the exact value above
    [m * 2^e], whose exact value is at most [2^c]: the mantissa is below
    [2^(c-e)], or it is [2^(c-e)] and nothing was cut off. *)
Definition exact_or_below (c m e : Z) (l : location) : Prop :=
  (0 ≤ m ∧ e ≤ c ∧ (m < 2 ^ (c - e) ∨ (m = 2 ^ (c - e) ∧ l = loc_Exact)))%Z.

(** A float between [0.0] and [1.0]. *)
Definition float_in_unit (x : float) : Prop :=
  match x with
  | S754_zero false => True
  | S754_finite false m e => below_pow2 0 (Zpos m) e
  | _ => False
  end.

(** The float [1.0]. *)
Definition float_one : float := S754_finite false 4503599627370496 (-52).

(** What one pass of each fetch loop stores for its row. *)
Definition standing_of_row (row : StandingsRow) : result StandingRecord :=
  w ← w_pct (WINS row) (LOSSES row);
  mret {| st_TEAM_NAME := TEAMNAME row; st_W_PCT := w |}.

Definition advanced_of_row (row : TeamStatsRow) : result AdvancedRecord :=
  off ← float_round (df_OFF_RATING row) 1;
  def ← float_round (df_DEF_RATING row) 1;
  net ← float_round (df_NET_RATING row) 1;
  ast ← float_round (df_AST_PCT row) 3;
  reb ← float_round (df_REB_PCT row) 3;
  ts ← float_round (df_TS_PCT row) 3;
  pace ← float_round (df_PACE row) 2;
  mret {| adv_OFF_RATING := off; adv_DEF_RATING := def;
          adv_NET_RATING := net; adv_AST_PCT := ast;
          adv_REB_PCT := reb; adv_TS_PCT := ts; adv_PACE := pace |}.

(** A float that is not finite, or finite with magnitude at most [2^970]. *)
Definition float_moderate (x : float) : Prop :=
  match x with
  | S754_finite _ m e => below_pow2 970 (Zpos m) e
  | _ => True
  end.

Definition stats_row_moderate (row : TeamStatsRow) : Prop :=
  float_moderate (df_OFF_RATING row) ∧ float_moderate (df_DEF_RATING row) ∧
  float_moderate (df_NET_RATING row) ∧ float_moderate (df_AST_PCT row) ∧
  float_moderate (df_REB_PCT row) ∧ float_moderate (df_TS_PCT row) ∧
  float_moderate (df_PACE row).

(** The lines [preview] prints for [rows]. *)
Definition preview_header : string :=
  "  " +:+ str_ljust "TEAM" 32 +:+ " " +:+ str_rjust "W_PCT" 5 +:+
  "  " +:+ str_rjust "NET" 5 +:+ "  " +:+ str_rjust "DEF" 5 +:+
  "  " +:+ str_rjust "PACE" 5.

Definition preview_lines (rows : list MergedRow) : list string :=
  [ LF +:+ preview_header; "  " +:+ str_repeat "─" 55 ] ++
  (preview_line <$> take 5 rows) ++
  (if (5 <? length rows)%nat
   then [ "  ... and " +:+ str_of_int (Z.of_nat (length rows) - 5) +:+
          " more teams" ]
   else []).



(** A response of each endpoint for the sample mappings. *)
Definition sample_standings_df : list StandingsRow :=
  [ {| TEAMID := 1; TEAMNAME := "Hawks"; WINS := 3; LOSSES := 2 |};
    {| TEAMID := 2; TEAMNAME := "Celtics"; WINS := 1; LOSSES := 1 |};
    {| TEAMID := 3; TEAMNAME := "Bulls"; WINS := 1; LOSSES := 3 |} ].

Definition sample_stats_row (id : Z) (net : float) : TeamStatsRow :=
  {| df_TEAM_ID := id;
     df_OFF_RATING := float_lit 11049 (-2);
     df_DEF_RATING := float_lit 10804 (-2);
     df_NET_RATING := net;
     df_AST_PCT := float_lit 6125 (-4);
     df_REB_PCT := float_lit 5 (-1);
     df_TS_PCT := float_lit 5551 (-4);
     df_PACE := float_lit 98765 (-3) |}.

Definition sample_stats_df : list TeamStatsRow :=
  [ sample_stats_row 3 (float_lit 245 (-2));
    sample_stats_row 4 (float_lit 1 0);
    sample_stats_row 1 (float_lit 49 (-1)) ].

Definition sample_api : nba_api :=
  {| LeagueStandingsV3 := inr sample_standings_df;
     LeagueDashTeamStats := inr sample_stats_df |}.

(** A standings response that lists team 1 twice. *)
Definition repeated_old_row : StandingsRow :=
  {| TEAMID := 1; TEAMNAME := "Old name"; WINS := 1; LOSSES := 1 |}.
Definition repeated_new_row : StandingsRow :=
  {| TEAMID := 1; TEAMNAME := "New name"; WINS := 3; LOSSES := 1 |}.
Definition repeated_other_row : StandingsRow :=
  {| TEAMID := 2; TEAMNAME := "Other"; WINS := 2; LOSSES := 2 |}.

Definition repeated_api : nba_api :=
  {| LeagueStandingsV3 :=
       inr ([repeated_old_row] ++ repeated_new_row :: [repeated_other_row]);
     LeagueDashTeamStats := inr [] |}.

Definition repeated_standings : dict StandingRecord :=
  [ ("1", {| st_TEAM_NAME := "New name"; st_W_PCT := float_lit 75 (-2) |});
    ("2", {| st_TEAM_NAME := "Other"; st_W_PCT := float_lit 5 (-1) |}) ].


(** A row of the sample mappings, and an entry for a team that is in
    neither. *)
Definition sample_row : MergedRow :=
  merge_row "1" {| st_TEAM_NAME := "Hawks"; st_W_PCT := float_lit 6 (-1) |}
    (sample_record (float_lit 49 (-1))).

Definition sample_extra : dict AdvancedRecord :=
  [ ("9", sample_record (float_lit 1 0)) ].

(** ** Properties of the runtime model *)

(** *** String order *)

Lemma str_lt_false_le (a b : string) : str_lt a b = false ↔ String.le b a.
Proof.
  unfold str_lt, String.ltb, String.le, String.leb.
  rewrite (String.compare_antisym b a).
  destruct (a ?= b)%string; simpl; split; intros H; done.
Qed.

Lemma str_lt_true_le (a b : string) : str_lt a b = true → String.le a b.
Proof.
  unfold str_lt, String.ltb, String.le, String.leb.
  destruct (a ?= b)%string; done.
Qed.

(** *** Sorting *)

Section SortFacts.
Context {A : Type} (key : A → string).

Lemma sort_insert_Permutation (x : A) (l : list A) :
  sort_insert key str_lt x l ≡ₚ x :: l.
Proof.
  induction l as [|y l IH]; simpl; [done|].
  destruct (str_lt (key y) (key x)); [|done].
  rewrite IH. apply Permutation_swap.
Qed.

Lemma list_sort_Permutation (l : list A) : list_sort key str_lt l ≡ₚ l.
Proof.
  induction l as [|x l IH]; simpl; [done|].
  by rewrite sort_insert_Permutation, IH.
Qed.

Lemma sort_insert_sorted (x : A) (l : list A) :
  StronglySorted (key_le key) l → StronglySorted (key_le key) (sort_insert key str_lt x l).
Proof.
  induction 1 as [|y l Hs IH Hall]; simpl.
  - repeat constructor.
  - destruct (str_lt (key y) (key x)) eqn:Hlt.
    + constructor; [done|].
      rewrite sort_insert_Permutation. constructor; [|done].
      by apply str_lt_true_le.
    + apply str_lt_false_le in Hlt.
      constructor; [by constructor|].
      constructor; [done|].
      eapply Forall_impl; [exact Hall|].
      intros z Hz. unfold key_le in *. by etrans.
Qed.

Lemma list_sort_sorted (l : list A) :
  StronglySorted (key_le key) (list_sort key str_lt l).
Proof.
  induction l; simpl; [constructor|]. by apply sort_insert_sorted.
Qed.

(** Stability: elements with the same key keep their order. *)
Lemma sort_insert_stable (k : string) (x : A) (l : list A) :
  StronglySorted (key_le key) l →
  filter (λ y, key y = k) (sort_insert key str_lt x l)
  = filter (λ y, key y = k) (x :: l).
Proof.
  induction 1 as [|y l Hs IH Hall]; simpl; [done|].
  destruct (str_lt (key y) (key x)) eqn:Hlt; [|done].
  rewrite !filter_cons, IH, !filter_cons.
  destruct (decide (key y = k)) as [Hy|Hy], (decide (key x = k)) as [Hx|Hx];
    try done.
  exfalso. unfold str_lt, String.ltb in Hlt.
  rewrite Hy, Hx in Hlt.
  pose proof (String.compare_antisym k k) as Hkk.
  destruct (k ?= k)%string; done.
Qed.

Lemma list_sort_stable (k : string) (l : list A) :
  filter (λ y, key y = k) (list_sort key str_lt l)
  = filter (λ y, key y = k) l.
Proof.
  induction l as [|x l IH]; simpl; [done|].
  rewrite sort_insert_stable by apply list_sort_sorted.
  by rewrite !filter_cons, IH.
Qed.
End SortFacts.

(** *** Dicts *)

Lemma dict_contains_keys {V} (k : string) (d : dict V) :
  dict_contains k d = true ↔ k ∈ dict_keys d.
Proof. unfold dict_contains. apply bool_decide_eq_true. Qed.

Lemma dict_get_None {V} (k : string) (d : dict V) :
  dict_get k d = None ↔ k ∉ dict_keys d.
Proof.
  unfold dict_keys. induction d as [|[k' v] d IH]; csimpl.
  - split; [intros _; apply not_elem_of_nil|done].
  - rewrite not_elem_of_cons. destruct (decide (k = k')) as [->|Hne].
    + split; [done|]. intros [? _]. done.
    + rewrite IH. split; [by intros ?|by intros [_ ?]].
Qed.

Lemma dict_get_is_Some {V} (k : string) (d : dict V) :
  is_Some (dict_get k d) ↔ k ∈ dict_keys d.
Proof.
  rewrite <-not_eq_None_Some, dict_get_None.
  split; [apply dec_stable|by intros ??].
Qed.

Lemma dict_get_elem_of {V} (k : string) (v : V) (d : dict V) :
  dict_get k d = Some v → (k, v) ∈ d.
Proof.
  induction d as [|[k' v'] d IH]; simpl; [done|].
  destruct (decide (k = k')) as [->|]; intros H.
  - injection H as ->. apply list_elem_of_here.
  - apply list_elem_of_further; auto.
Qed.

Lemma dict_wf_get {V} (k : string) (v : V) (d : dict V) :
  dict_wf d → (k, v) ∈ d → dict_get k d = Some v.
Proof.
  unfold dict_wf, dict_keys.
  induction d as [|[k' v'] d IH]; simpl; intros Hwf Hin.
  - by apply elem_of_nil in Hin.
  - apply NoDup_cons in Hwf as [Hk' Hwf].
    apply elem_of_cons in Hin as [Heq|Hin].
    + injection Heq as -> ->. by rewrite decide_True.
    + rewrite decide_False; [auto|].
      intros ->. apply Hk'. apply list_elem_of_fmap. by exists (k', v).
Qed.

Lemma dict_set_keys {V} (k : string) (v : V) (d : dict V) :
  dict_keys (dict_set k v d)
  = if decide (k ∈ dict_keys d) then dict_keys d else dict_keys d ++ [k].
Proof.
  unfold dict_keys. induction d as [|[k' v'] d IH]; csimpl; [done|].
  destruct (decide (k = k')) as [->|Hne]; csimpl.
  - rewrite decide_True; [done|apply list_elem_of_here].
  - rewrite IH. destruct (decide (k ∈ d.*1)).
    + rewrite decide_True; [done|by apply list_elem_of_further].
    + rewrite decide_False; [done|]. rewrite elem_of_cons. by intros [?|?].
Qed.

Lemma dict_set_wf {V} (k : string) (v : V) (d : dict V) :
  dict_wf d → dict_wf (dict_set k v d).
Proof.
  unfold dict_wf. rewrite dict_set_keys. intros Hwf.
  destruct (decide (k ∈ dict_keys d)); [done|].
  apply NoDup_app. split; [done|]. split; [|apply NoDup_singleton].
  intros x Hx ->%list_elem_of_singleton. done.
Qed.

Lemma dict_get_set {V} (k k' : string) (v : V) (d : dict V) :
  dict_get k' (dict_set k v d)
  = if decide (k' = k) then Some v else dict_get k' d.
Proof.
  induction d as [|[k0 v0] d IH]; simpl.
  - by destruct (decide (k' = k)).
  - destruct (decide (k = k0)) as [->|Hne]; simpl.
    + by destruct (decide (k' = k0)).
    + rewrite IH. destruct (decide (k' = k0)) as [->|]; [|done].
      by rewrite decide_False.
Qed.

(** ** build_rows *)

Lemma join_item_Some (advanced : dict AdvancedRecord)
    (item : string * StandingRecord) (r : MergedRow) :
  join_item advanced item = Some r ↔
  ∃ adv, dict_get item.1 advanced = Some adv ∧ r = merge_row item.1 item.2 adv.
Proof.
  unfold join_item. destruct (dict_get item.1 advanced) as [adv|]; simpl.
  - split.
    + intros [= <-]. by exists adv.
    + intros (adv' & [= <-] & ->). done.
  - split; [done|]. by intros (? & ? & _).
Qed.

(** The loop appends the rows of the matched items and prints a warning for
    each of the others; it never raises. *)
Lemma build_rows_loop_run items advanced rows w :
  build_rows_loop items advanced rows w
  = (inr (rows ++ joined items advanced),
     printed (skip_warning <$> (unmatched items advanced).*2) w).
Proof.
  revert rows w. unfold joined, unmatched.
  induction items as [|[tid s] items IH]; intros rows w; simpl.
  - rewrite app_nil_r. by destruct w; unfold printed; simpl; rewrite app_nil_r.
  - rewrite filter_cons. unfold join_item at 1. simpl.
    destruct (dict_contains tid advanced) eqn:Hin; simpl.
    + apply dict_contains_keys in Hin.
      rewrite decide_False by (by intros ?).
      apply dict_get_is_Some in Hin as [adv Hadv].
      unfold mbind at 1, M_bind, lift, dict_getitem. rewrite Hadv. simpl.
      rewrite IH. by rewrite <-app_assoc.
    + assert (tid ∉ dict_keys advanced) as Hnot.
      { intros ?%dict_contains_keys. congruence. }
      rewrite decide_True by done.
      apply dict_get_None in Hnot. rewrite Hnot. simpl.
      unfold mbind at 1, M_bind, print. simpl. rewrite IH.
      unfold printed. simpl. by rewrite <-app_assoc.
Qed.

Lemma build_rows_run standings advanced w :
  build_rows standings advanced w
  = (inr (list_sort TEAM_NAME str_lt (joined standings advanced)),
     printed (skip_warning <$> (unmatched standings advanced).*2) w).
Proof.
  unfold build_rows, mbind, M_bind. by rewrite build_rows_loop_run.
Qed.

Lemma joined_team_ids standings advanced :
  TEAM_ID <$> joined standings advanced
  = filter (λ tid, tid ∈ dict_keys advanced) (dict_keys standings).
Proof.
  unfold joined, dict_keys at 2.
  induction standings as [|[tid s] standings IH]; csimpl; [done|].
  rewrite filter_cons. unfold join_item at 1. simpl.
  destruct (dict_get tid advanced) as [adv|] eqn:Hget; simpl.
  - rewrite decide_True by (apply dict_get_is_Some; eauto).
    csimpl. f_equal. exact IH.
  - rewrite decide_False by (by apply dict_get_None). exact IH.
Qed.

Lemma elem_of_joined standings advanced r :
  r ∈ joined standings advanced ↔
  ∃ tid s adv, (tid, s) ∈ standings ∧ dict_get tid advanced = Some adv ∧
               r = merge_row tid s adv.
Proof.
  unfold joined. rewrite list_elem_of_omap. split.
  - intros ([tid s] & Hin & (adv & Hadv & ->)%join_item_Some).
    by exists tid, s, adv.
  - intros (tid & s & adv & Hin & Hadv & ->).
    exists (tid, s). split; [done|]. apply join_item_Some. by exists adv.
Qed.

Lemma elem_of_build_rows standings advanced r :
  r ∈ list_sort TEAM_NAME str_lt (joined standings advanced) ↔
  r ∈ joined standings advanced.
Proof. by rewrite (list_sort_Permutation TEAM_NAME). Qed.

(** C2: on mappings [standings] and [advanced], [build_rows] returns as many
    rows as there are team ids present in both, which is at most
    [min(len(standings), len(advanced))]. *)
Theorem build_rows_count standings advanced w :
  dict_wf standings → dict_wf advanced →
  ∃ rows w',
    build_rows standings advanced w = (inr rows, w') ∧
    length rows
    = size (list_to_set (dict_keys standings) ∩
            list_to_set (dict_keys advanced) : gset string) ∧
    length rows ≤ dict_len standings `min` dict_len advanced.
Proof.
  intros Hst Hadv. eexists _, _. split; [apply build_rows_run|].
  rewrite (list_sort_Permutation TEAM_NAME).
  rewrite <-(length_fmap TEAM_ID), joined_team_ids.
  set (both := filter (λ tid, tid ∈ dict_keys advanced) (dict_keys standings)).
  assert (list_to_set both
          = (list_to_set (dict_keys standings) ∩
             list_to_set (dict_keys advanced) : gset string)) as <-.
  { apply set_eq. intros tid. unfold both.
    rewrite elem_of_intersection, !elem_of_list_to_set, list_elem_of_filter.
    tauto. }
  assert (NoDup both) as Hboth by (by apply NoDup_filter).
  split; [by rewrite size_list_to_set|].
  apply Nat.min_glb.
  - unfold both, dict_len, dict_keys.
    rewrite <-(length_fmap fst standings). apply length_filter.
  - unfold dict_len. rewrite <-(length_fmap fst advanced).
    apply submseteq_length, NoDup_submseteq; [done|].
    intros tid. unfold both. rewrite list_elem_of_filter. tauto.
Qed.

Lemma build_rows_count_witness :
  dict_wf sample_standings ∧ dict_wf sample_advanced ∧
  ∃ rows w',
    build_rows sample_standings sample_advanced empty_world = (inr rows, w') ∧
    length rows
    = size (list_to_set (dict_keys sample_standings) ∩
            list_to_set (dict_keys sample_advanced) : gset string) ∧
    length rows ≤ dict_len sample_standings `min` dict_len sample_advanced.
Proof.
  assert (dict_wf sample_standings) as H1
    by (apply (bool_decide_unpack _); vm_compute; exact I).
  assert (dict_wf sample_advanced) as H2
    by (apply (bool_decide_unpack _); vm_compute; exact I).
  split; [exact H1|]. split; [exact H2|].
  exact (build_rows_count sample_standings sample_advanced empty_world H1 H2).
Defined.

(** C3: every row [build_rows] returns has a team id that is a key of the
    advanced-stats mapping; a standings entry whose team id is not a key of it
    gives a printed warning and no row, and [build_rows] never raises. *)
Theorem build_rows_skips_unmatched standings advanced w :
  ∃ rows warnings,
    build_rows standings advanced w = (inr rows, printed warnings w) ∧
    (∀ r, r ∈ rows → TEAM_ID r ∈ dict_keys advanced) ∧
    (∀ tid s, (tid, s) ∈ standings → tid ∉ dict_keys advanced →
       skip_warning s ∈ warnings ∧ ∀ r, r ∈ rows → TEAM_ID r ≠ tid).
Proof.
  eexists _, _. split; [apply build_rows_run|].
  assert (∀ r, r ∈ list_sort TEAM_NAME str_lt (joined standings advanced) →
               TEAM_ID r ∈ dict_keys advanced) as Hkeys.
  { intros r (tid & s & adv & _ & Hadv & ->)%elem_of_build_rows%elem_of_joined.
    simpl. apply dict_get_is_Some. eauto. }
  split; [exact Hkeys|].
  intros tid s Hin Hnot. split.
  - apply list_elem_of_fmap. exists s. split; [done|].
    apply list_elem_of_fmap. exists (tid, s). split; [done|].
    unfold unmatched. by apply list_elem_of_filter.
  - intros r Hr <-. by apply Hnot, Hkeys.
Qed.

(** C4: the rows [build_rows] returns are in ascending order of [TEAM_NAME]
    under the order of Python strings. *)
Theorem build_rows_sorted standings advanced w :
  ∃ rows w',
    build_rows standings advanced w = (inr rows, w') ∧
    StronglySorted name_le rows.
Proof.
  eexists _, _. split; [apply build_rows_run|].
  apply (list_sort_sorted TEAM_NAME).
Qed.

(** C9: on a mapping [standings], the [TEAM_ID]s of the rows [build_rows]
    returns are pairwise distinct. *)
Theorem build_rows_team_ids_distinct standings advanced w :
  dict_wf standings →
  ∃ rows w',
    build_rows standings advanced w = (inr rows, w') ∧
    NoDup (TEAM_ID <$> rows).
Proof.
  intros Hst. eexists _, _. split; [apply build_rows_run|].
  rewrite (list_sort_Permutation TEAM_NAME), joined_team_ids.
  by apply NoDup_filter.
Qed.

Lemma build_rows_team_ids_distinct_witness :
  dict_wf sample_standings ∧
  ∃ rows w',
    build_rows sample_standings sample_advanced empty_world = (inr rows, w') ∧
    NoDup (TEAM_ID <$> rows).
Proof.
  assert (dict_wf sample_standings) as H1
    by (apply (bool_decide_unpack _); vm_compute; exact I).
  split; [exact H1|].
  exact (build_rows_team_ids_distinct sample_standings sample_advanced
           empty_world H1).
Defined.

(** C10: every row [build_rows] returns carries the values of its team's
    entries in [standings] and [advanced] unchanged, and the season
    ["2025-26"]. *)
Theorem build_rows_fields_unchanged standings advanced w :
  dict_wf standings →
  ∃ rows w',
    build_rows standings advanced w = (inr rows, w') ∧
    ∀ r, r ∈ rows →
      ∃ s adv,
        dict_get (TEAM_ID r) standings = Some s ∧
        dict_get (TEAM_ID r) advanced = Some adv ∧
        TEAM_NAME r = st_TEAM_NAME s ∧
        W_PCT r = st_W_PCT s ∧
        OFF_RATING r = adv_OFF_RATING adv ∧
        DEF_RATING r = adv_DEF_RATING adv ∧
        NET_RATING r = adv_NET_RATING adv ∧
        AST_PCT r = adv_AST_PCT adv ∧
        REB_PCT r = adv_REB_PCT adv ∧
        TS_PCT r = adv_TS_PCT adv ∧
        PACE r = adv_PACE adv ∧
        Season r = "2025-26".
Proof.
  intros Hst. eexists _, _. split; [apply build_rows_run|].
  intros r (tid & s & adv & Hin & Hadv & ->)%elem_of_build_rows%elem_of_joined.
  exists s, adv. simpl. split; [by apply dict_wf_get|]. by repeat split.
Qed.

Lemma build_rows_fields_unchanged_witness :
  dict_wf sample_standings ∧
  ∃ rows w',
    build_rows sample_standings sample_advanced empty_world = (inr rows, w') ∧
    ∀ r, r ∈ rows →
      ∃ s adv,
        dict_get (TEAM_ID r) sample_standings = Some s ∧
        dict_get (TEAM_ID r) sample_advanced = Some adv ∧
        TEAM_NAME r = st_TEAM_NAME s ∧
        W_PCT r = st_W_PCT s ∧
        OFF_RATING r = adv_OFF_RATING adv ∧
        DEF_RATING r = adv_DEF_RATING adv ∧
        NET_RATING r = adv_NET_RATING adv ∧
        AST_PCT r = adv_AST_PCT adv ∧
        REB_PCT r = adv_REB_PCT adv ∧
        TS_PCT r = adv_TS_PCT adv ∧
        PACE r = adv_PACE adv ∧
        Season r = "2025-26".
Proof.
  assert (dict_wf sample_standings) as H1
    by (apply (bool_decide_unpack _); vm_compute; exact I).
  split; [exact H1|].
  exact (build_rows_fields_unchanged sample_standings sample_advanced
           empty_world H1).
Defined.

(** ** write_csv *)

Lemma str_app_cons (c : ascii) (a b : string) :
  String c a +:+ b = String c (a +:+ b).
Proof. reflexivity. Qed.

Lemma str_app_assoc (a b c : string) : (a +:+ b) +:+ c = a +:+ (b +:+ c).
Proof.
  induction a as [|x a IH]; [reflexivity|].
  rewrite !str_app_cons. by rewrite IH.
Qed.

Lemma str_app_nil_r (a : string) : a +:+ "" = a.
Proof.
  induction a as [|x a IH]; [reflexivity|].
  rewrite str_app_cons. by rewrite IH.
Qed.

(** With the script's column list no row has a key outside [fieldnames]:
    the writer gets the eleven fields in column order. *)
Lemma DictWriter_dict_to_list_columns (r : MergedRow) :
  DictWriter_dict_to_list CSV_COLUMNS r = inr (row_fields r).
Proof. reflexivity. Qed.

Lemma file_write_after (path content s : string) (w : world) :
  files w !! path = Some content →
  file_write path s w
  = (inr (),
     World (stdout w) (<[path := content +:+ s]> (files w)) (api_calls w)).
Proof. intros H. unfold file_write. by rewrite H. Qed.

Lemma DictWriter_writerows_run (path content : string) rows (w : world) :
  files w !! path = Some content →
  DictWriter_writerows path CSV_COLUMNS rows w
  = (inr (),
     World (stdout w)
           (<[path := content +:+ csv_rows_text rows]> (files w))
           (api_calls w)).
Proof.
  revert content w. induction rows as [|r rows IH]; intros content w Hc.
  - simpl. rewrite str_app_nil_r, insert_id by done. by destruct w.
  - cbn [DictWriter_writerows csv_rows_text].
    rewrite DictWriter_dict_to_list_columns.
    unfold mbind, M_bind, lift, csv_writerow.
    rewrite (file_write_after _ content) by done.
    rewrite (IH (content +:+ csv_record (value_str <$> row_fields r)))
      by (simpl; apply lookup_insert_eq).
    simpl. by rewrite insert_insert_eq, str_app_assoc.
Qed.

Lemma write_csv_run rows (filepath : string) (w : world) :
  write_csv rows filepath w
  = (inr (),
     World (stdout w ++
            [ "  ✓ Saved → " +:+ filepath +:+ "  (" +:+
              str_of_int (Z.of_nat (length rows)) +:+ " teams)" ])
           (<[filepath := csv_header_text +:+ CR +:+ LF +:+ csv_rows_text rows]>
              (files w))
           (api_calls w)).
Proof.
  unfold write_csv, mbind, M_bind, file_open_w, DictWriter_writeheader,
    csv_writerow.
  rewrite (file_write_after _ "") by (simpl; apply lookup_insert_eq).
  rewrite (DictWriter_writerows_run _ (csv_header_text +:+ CR +:+ LF))
    by (simpl; apply lookup_insert_eq).
  unfold print. simpl. rewrite !insert_insert_eq.
  by rewrite !str_app_assoc.
Qed.

(** C5: for every list of rows, the empty one included, [write_csv] leaves in
    the file a first line that is the header of the eleven columns
    [TEAM_ID, TEAM_NAME, W_PCT, OFF_RATING, DEF_RATING, NET_RATING, AST_PCT,
    REB_PCT, TS_PCT, PACE, Season] in this order, followed by one record per
    row in the order of the rows. *)
Theorem write_csv_header_and_rows rows (filepath : string) (w : world) :
  ∃ w' content,
    write_csv rows filepath w = (inr (), w') ∧
    files w' !! filepath = Some content ∧
    content
    = "TEAM_ID,TEAM_NAME,W_PCT,OFF_RATING,DEF_RATING,NET_RATING,AST_PCT,REB_PCT,TS_PCT,PACE,Season"
      +:+ CR +:+ LF +:+ csv_rows_text rows ∧
    first_line content = str_join "," CSV_COLUMNS ∧
    CSV_COLUMNS
    = [ "TEAM_ID"; "TEAM_NAME"; "W_PCT"; "OFF_RATING"; "DEF_RATING";
        "NET_RATING"; "AST_PCT"; "REB_PCT"; "TS_PCT"; "PACE"; "Season" ] ∧
    length CSV_COLUMNS = 11.
Proof.
  eexists _, _. split; [apply write_csv_run|].
  split; [simpl; apply lookup_insert_eq|].
  by repeat split.
Qed.

(** C8: on the example inputs (team ["1"], Alpha, 0.6 and 110.0, 105.0, 5.0,
    0.2, 0.5, 0.55, 98.0) [build_rows] followed by [write_csv] writes the
    header and exactly one record,
    [1,Alpha,0.6,110.0,105.0,5.0,0.2,0.5,0.55,98.0,2025-26]. *)
Theorem example_end_to_end (filepath : string) (w : world) :
  ∃ rows w',
    (rows ← build_rows example_standings example_advanced;
     write_csv rows filepath ;; mret rows) w = (inr rows, w') ∧
    length rows = 1 ∧
    csv_rows_text rows
    = "1,Alpha,0.6,110.0,105.0,5.0,0.2,0.5,0.55,98.0,2025-26" +:+ CR +:+ LF ∧
    files w' !! filepath
    = Some (csv_header_text +:+ CR +:+ LF +:+
            "1,Alpha,0.6,110.0,105.0,5.0,0.2,0.5,0.55,98.0,2025-26"
            +:+ CR +:+ LF).
Proof.
  set (rows := list_sort TEAM_NAME str_lt
                 (joined example_standings example_advanced)).
  assert (length rows = 1) as Hlen by (vm_compute; reflexivity).
  assert (csv_rows_text rows
          = "1,Alpha,0.6,110.0,105.0,5.0,0.2,0.5,0.55,98.0,2025-26"
            +:+ CR +:+ LF) as Htext by (vm_compute; reflexivity).
  eexists rows, _. split.
  { unfold mbind at 1, M_bind. rewrite build_rows_run. fold rows.
    unfold mbind, M_bind. rewrite write_csv_run.
    rewrite Htext, Hlen. reflexivity. }
  split; [exact Hlen|]. split; [exact Htext|].
  cbv beta iota delta [files]. apply lookup_insert_eq.
Qed.

(** ** main *)

Lemma print_run (s : string) (w : world) : print s w = (inr (), printed [s] w).
Proof. reflexivity. Qed.

Lemma printed_app (l1 l2 : list string) (w : world) :
  printed l2 (printed l1 w) = printed (l1 ++ l2) w.
Proof. unfold printed. cbn [stdout files api_calls]. by rewrite app_assoc. Qed.

Lemma printed_nil (w : world) : printed [] w = w.
Proof. destruct w. unfold printed. cbn [stdout]. by rewrite app_nil_r. Qed.

(** What the script can raise by itself is always an [Exception]. *)
Lemma int_truediv_raises (a b : Z) (e : raised) :
  int_truediv a b = inl e → ∃ cls msg, e = Exception cls msg.
Proof.
  unfold int_truediv. destruct (b =? 0)%Z; [intros [= <-]; eauto|].
  destruct (float_of_ratio _ _ _); intros [= <-]; eauto.
Qed.

Lemma float_round_raises (x : float) (n : Z) (e : raised) :
  float_round x n = inl e → ∃ cls msg, e = Exception cls msg.
Proof.
  unfold float_round. destruct x as [| | |s m ex]; try done.
  destruct (n >? NDIGITS_MAX)%Z; [done|].
  destruct (n <? NDIGITS_MIN)%Z; [done|].
  destruct (float_frac m ex) as [num den].
  destruct (float_of_decimal _ _ _); intros [= <-]; eauto.
Qed.

Lemma w_pct_raises (wins losses : Z) (e : raised) :
  w_pct wins losses = inl e → ∃ cls msg, e = Exception cls msg.
Proof.
  unfold w_pct. destruct (wins + losses >? 0)%Z; [|done].
  destruct (int_truediv wins (wins + losses)) as [e'|q] eqn:Hq; simpl.
  - intros [= <-]. by eapply int_truediv_raises.
  - apply float_round_raises.
Qed.

Lemma fetch_standings_loop_raises df standings (e : raised) :
  fetch_standings_loop df standings = inl e → ∃ cls msg, e = Exception cls msg.
Proof.
  revert standings. induction df as [|row df IH]; intros standings; [done|].
  cbn [fetch_standings_loop].
  destruct (w_pct (WINS row) (LOSSES row)) as [e'|x] eqn:Hw; simpl.
  - intros [= <-]. by eapply w_pct_raises.
  - apply IH.
Qed.

Lemma fetch_advanced_stats_loop_raises df stats (e : raised) :
  fetch_advanced_stats_loop df stats = inl e →
  ∃ cls msg, e = Exception cls msg.
Proof.
  revert stats. induction df as [|row df IH]; intros stats; [done|].
  cbn [fetch_advanced_stats_loop].
  repeat match goal with
  | |- context [float_round ?x ?n] =>
      let H := fresh "H" in
      destruct (float_round x n) as [?|?] eqn:H; simpl;
      [intros [= <-]; by eapply float_round_raises|]
  end.
  apply IH.
Qed.

(** The two fetchers, run from a world [w]. *)
Lemma fetch_standings_run (api : nba_api) (w : world) :
  fetch_standings api w
  = let w1 := World (stdout w ++
                     ["  [1/2] Fetching standings for " +:+ SEASON +:+ "..."])
                    (files w) (api_calls w ++ ["leaguestandingsv3"]) in
    match LeagueStandingsV3 api with
    | inl err => (inl (Exception (err_cls err) (err_msg err)), w1)
    | inr df =>
        match fetch_standings_loop df [] with
        | inl e => (inl e, w1)
        | inr standings =>
            (inr standings,
             printed ["  ✓ Standings fetched — " +:+
                      str_of_int (Z.of_nat (dict_len standings)) +:+ " teams"]
                     w1)
        end
    end.
Proof.
  unfold fetch_standings, mbind, M_bind, print, time_sleep, call_endpoint, lift,
    mret, M_ret. cbn [stdout files api_calls].
  destruct (LeagueStandingsV3 api) as [err|df]; [done|].
  by destruct (fetch_standings_loop df []).
Qed.

Lemma fetch_advanced_stats_run (api : nba_api) (w : world) :
  fetch_advanced_stats api w
  = let w1 := World (stdout w ++
                     ["  [2/2] Fetching advanced stats for " +:+ SEASON +:+
                      "..."])
                    (files w) (api_calls w ++ ["leaguedashteamstats"]) in
    match LeagueDashTeamStats api with
    | inl err => (inl (Exception (err_cls err) (err_msg err)), w1)
    | inr df =>
        match fetch_advanced_stats_loop df [] with
        | inl e => (inl e, w1)
        | inr stats =>
            (inr stats,
             printed ["  ✓ Advanced stats fetched — " +:+
                      str_of_int (Z.of_nat (dict_len stats)) +:+ " teams"]
                     w1)
        end
    end.
Proof.
  unfold fetch_advanced_stats, mbind, M_bind, print, time_sleep, call_endpoint,
    lift, mret, M_ret. cbn [stdout files api_calls].
  destruct (LeagueDashTeamStats api) as [err|df]; [done|].
  by destruct (fetch_advanced_stats_loop df []).
Qed.

(** The dicts the fetchers return are well formed: each team id is a key
    once, whatever the rows of the response. *)
Lemma fetch_standings_loop_wf df standings standings' :
  dict_wf standings →
  fetch_standings_loop df standings = inr standings' →
  dict_wf standings'.
Proof.
  revert standings. induction df as [|row df IH]; intros standings Hwf.
  - by intros [= <-].
  - cbn [fetch_standings_loop].
    destruct (w_pct (WINS row) (LOSSES row)) as [e|x]; [done|]. simpl.
    by apply IH, dict_set_wf.
Qed.

Lemma fetch_advanced_stats_loop_wf df stats stats' :
  dict_wf stats →
  fetch_advanced_stats_loop df stats = inr stats' →
  dict_wf stats'.
Proof.
  revert stats. induction df as [|row df IH]; intros stats Hwf.
  - by intros [= <-].
  - cbn [fetch_advanced_stats_loop].
    repeat match goal with
    | |- context [float_round ?x ?n] =>
        destruct (float_round x n) as [?|?]; [done|]; simpl
    end.
    by apply IH, dict_set_wf.
Qed.

(** [main], phase by phase. *)
Lemma main_run (api : nba_api) (cli_output : option string) (w : world) :
  main api cli_output w
  = match fetch_standings api (printed banner_lines w) with
    | (inl (Exception _ msg), w1) =>
        (inl (SystemExit 1), printed (failure_lines msg) w1)
    | (inl (SystemExit code), w1) => (inl (SystemExit code), w1)
    | (inr standings, w1) =>
        match fetch_advanced_stats api w1 with
        | (inl (Exception _ msg), w2) =>
            (inl (SystemExit 1), printed (failure_lines msg) w2)
        | (inl (SystemExit code), w2) => (inl (SystemExit code), w2)
        | (inr advanced, w2) =>
            match build_rows standings advanced w2 with
            | (inl e, w3) => (inl e, w3)
            | (inr [], w3) =>
                (inl (SystemExit 1),
                 printed
                   ["  ERROR: No rows produced — check API responses above"]
                   w3)
            | (inr rows, w3) =>
                (write_csv rows (args_output cli_output) ;;
                 preview rows ;;
                 print (LF +:+ "  ✅ " +:+ args_output cli_output +:+
                        " is ready to be uploaded to Azure ML for prediction"
                        +:+ LF)) w3
            end
        end
    end.
Proof.
  unfold main, try_except_Exception.
  unfold mbind at 1 2 3 4 5, M_bind. rewrite !print_run, !printed_app.
  change ([_] ++ [_] ++ [_] ++ [_]) with banner_lines.
  unfold mbind at 1, M_bind.
  destruct (fetch_standings api (printed banner_lines w))
    as [[[cls msg|code]|standings] w1].
  - unfold mbind, M_bind, sys_exit, raise.
    rewrite !print_run, !printed_app. reflexivity.
  - reflexivity.
  - unfold mbind at 1, M_bind.
    destruct (fetch_advanced_stats api w1) as [[[cls msg|code]|advanced] w2].
    + unfold mbind, M_bind, sys_exit, raise.
      rewrite !print_run, !printed_app. reflexivity.
    + reflexivity.
    + unfold mret at 1, M_ret. cbn [fst snd].
      unfold mbind at 1, M_bind.
      destruct (build_rows standings advanced w2) as [[e|rows] w3]; [done|].
      destruct rows as [|r rows].
      * unfold mbind, M_bind, sys_exit, raise. by rewrite print_run.
      * reflexivity.
Qed.

Lemma app_between {A} (l a b x : list A) :
  l = a ++ b → l ++ x = a ++ b ++ x.
Proof. intros ->. by rewrite <-app_assoc. Qed.

Lemma fetch_standings_returns (api : nba_api) standings :
  returns (fetch_standings api) standings →
  ∃ df, LeagueStandingsV3 api = inr df ∧
        fetch_standings_loop df [] = inr standings.
Proof.
  intros (w & w' & H). rewrite fetch_standings_run in H. cbv zeta in H.
  destruct (LeagueStandingsV3 api) as [err|df] eqn:Hapi; [done|].
  destruct (fetch_standings_loop df []) as [e|st] eqn:Hloop; [done|].
  injection H as -> _. by exists df.
Qed.

Lemma fetch_advanced_stats_returns (api : nba_api) stats :
  returns (fetch_advanced_stats api) stats →
  ∃ df, LeagueDashTeamStats api = inr df ∧
        fetch_advanced_stats_loop df [] = inr stats.
Proof.
  intros (w & w' & H). rewrite fetch_advanced_stats_run in H. cbv zeta in H.
  destruct (LeagueDashTeamStats api) as [err|df] eqn:Hapi; [done|].
  destruct (fetch_advanced_stats_loop df []) as [e|st] eqn:Hloop; [done|].
  injection H as -> _. by exists df.
Qed.

Lemma fetch_standings_returns_wf (api : nba_api) standings :
  returns (fetch_standings api) standings → dict_wf standings.
Proof.
  intros (df & _ & Hloop)%fetch_standings_returns.
  eapply fetch_standings_loop_wf; [|exact Hloop]. apply NoDup_nil_2.
Qed.

Lemma fetch_advanced_stats_returns_wf (api : nba_api) stats :
  returns (fetch_advanced_stats api) stats → dict_wf stats.
Proof.
  intros (df & _ & Hloop)%fetch_advanced_stats_returns.
  eapply fetch_advanced_stats_loop_wf; [|exact Hloop]. apply NoDup_nil_2.
Qed.

(** A fetcher raises the same exception from every world, and what it raises
    is an [Exception]. *)
Lemma fetch_standings_raises (api : nba_api) (e : raised) :
  raises (fetch_standings api) e →
  ∃ cls msg, e = Exception cls msg ∧
    ∀ w, fetch_standings api w
         = (inl e,
            World (stdout w ++
                   ["  [1/2] Fetching standings for " +:+ SEASON +:+ "..."])
                  (files w) (api_calls w ++ ["leaguestandingsv3"])).
Proof.
  intros (w & w' & H). rewrite fetch_standings_run in H. cbv zeta in H.
  destruct (LeagueStandingsV3 api) as [err|df] eqn:Hapi.
  - injection H as <- _. eexists _, _. split; [done|].
    intros w0. by rewrite fetch_standings_run, Hapi.
  - destruct (fetch_standings_loop df []) as [e'|st] eqn:Hloop; [|done].
    injection H as -> _.
    destruct (fetch_standings_loop_raises _ _ _ Hloop) as (cls & msg & ->).
    eexists _, _. split; [done|].
    intros w0. by rewrite fetch_standings_run, Hapi, Hloop.
Qed.

Lemma fetch_advanced_stats_raises (api : nba_api) (e : raised) :
  raises (fetch_advanced_stats api) e →
  ∃ cls msg, e = Exception cls msg ∧
    ∀ w, fetch_advanced_stats api w
         = (inl e,
            World (stdout w ++
                   ["  [2/2] Fetching advanced stats for " +:+ SEASON +:+
                    "..."])
                  (files w) (api_calls w ++ ["leaguedashteamstats"])).
Proof.
  intros (w & w' & H). rewrite fetch_advanced_stats_run in H. cbv zeta in H.
  destruct (LeagueDashTeamStats api) as [err|df] eqn:Hapi.
  - injection H as <- _. eexists _, _. split; [done|].
    intros w0. by rewrite fetch_advanced_stats_run, Hapi.
  - destruct (fetch_advanced_stats_loop df []) as [e'|st] eqn:Hloop; [|done].
    injection H as -> _.
    destruct (fetch_advanced_stats_loop_raises _ _ _ Hloop) as (cls & msg & ->).
    eexists _, _. split; [done|].
    intros w0. by rewrite fetch_advanced_stats_run, Hapi, Hloop.
Qed.

(** C6: when the two fetches succeed and merging what they return gives no
    row, the script prints the diagnostic line last and exits with status 1;
    no file is written or created. *)
Theorem main_zero_rows (api : nba_api) (cli_output : option string)
    (w : world) standings advanced :
  returns (fetch_standings api) standings →
  returns (fetch_advanced_stats api) advanced →
  returns (build_rows standings advanced) [] →
  ∃ w' before,
    run_script api cli_output w = (1%Z, w') ∧
    files w' = files w ∧
    stdout w'
    = stdout w ++ before ++
      ["  ERROR: No rows produced — check API responses above"].
Proof.
  intros (df1 & Hapi1 & Hloop1)%fetch_standings_returns
         (df2 & Hapi2 & Hloop2)%fetch_advanced_stats_returns
         (w0 & w0' & Hrows).
  rewrite build_rows_run in Hrows. injection Hrows as Hrows _.
  unfold run_script. rewrite main_run.
  rewrite fetch_standings_run, Hapi1, Hloop1. cbv beta iota zeta.
  rewrite fetch_advanced_stats_run, Hapi2, Hloop2. cbv beta iota zeta.
  rewrite build_rows_run, Hrows. cbv beta iota zeta. cbn [exit_status].
  eexists _, _. split; [reflexivity|].
  unfold printed. cbn [stdout files api_calls]. split; [reflexivity|].
  apply app_between. rewrite <-!app_assoc. reflexivity.
Qed.

Lemma main_zero_rows_witness :
  returns (fetch_standings unmatched_api) unmatched_standings ∧
  returns (fetch_advanced_stats unmatched_api) [] ∧
  returns (build_rows unmatched_standings []) [] ∧
  ∃ w' before,
    run_script unmatched_api None empty_world = (1%Z, w') ∧
    files w' = files empty_world ∧
    stdout w'
    = stdout empty_world ++ before ++
      ["  ERROR: No rows produced — check API responses above"].
Proof.
  assert (returns (fetch_standings unmatched_api) unmatched_standings) as H1.
  { exists empty_world, (fetch_standings unmatched_api empty_world).2.
    vm_compute. reflexivity. }
  assert (returns (fetch_advanced_stats unmatched_api) []) as H2.
  { exists empty_world, (fetch_advanced_stats unmatched_api empty_world).2.
    vm_compute. reflexivity. }
  assert (returns (build_rows unmatched_standings []) []) as H3.
  { exists empty_world, (build_rows unmatched_standings [] empty_world).2.
    vm_compute. reflexivity. }
  split; [exact H1|]. split; [exact H2|]. split; [exact H3|].
  exact (main_zero_rows unmatched_api None empty_world unmatched_standings []
           H1 H2 H3).
Defined.

(** C7: when fetching the standings raises, or it succeeds and fetching the
    advanced stats raises, what is raised is an [Exception]; the script
    prints the diagnostic lines last, the first with the error text, and
    exits with status 1.  No file is written, and each endpoint was requested
    at most once. *)
Theorem main_fetch_failure (api : nba_api) (cli_output : option string)
    (w : world) (e : raised) :
  raises (fetch_standings api) e ∨
  ((∃ standings, returns (fetch_standings api) standings) ∧
   raises (fetch_advanced_stats api) e) →
  ∃ cls msg w' before,
    e = Exception cls msg ∧
    run_script api cli_output w = (1%Z, w') ∧
    files w' = files w ∧
    stdout w'
    = stdout w ++ before ++
      [ LF +:+ "  ERROR: NBA API call failed — " +:+ msg;
        "  Possible causes:";
        "    • No internet connection";
        "    • Rate limited — wait 60s and retry";
        "    • Season endpoint not yet available" ] ∧
    (api_calls w' = api_calls w ++ ["leaguestandingsv3"] ∨
     api_calls w' = api_calls w ++ ["leaguestandingsv3"; "leaguedashteamstats"]).
Proof.
  intros [Hraise|[[standings Hret] Hraise]].
  - destruct (fetch_standings_raises _ _ Hraise) as (cls & msg & -> & Hrun).
    exists cls, msg. unfold run_script. rewrite main_run, Hrun.
    cbv beta iota zeta. cbn [exit_status]. eexists _, _. split; [done|]. split; [reflexivity|].
    unfold printed, failure_lines. cbn [stdout files api_calls].
    split; [reflexivity|]. split; [|by left].
    apply app_between. rewrite <-!app_assoc. reflexivity.
  - destruct (fetch_standings_returns _ _ Hret) as (df & Hapi & Hloop).
    destruct (fetch_advanced_stats_raises _ _ Hraise)
      as (cls & msg & -> & Hrun).
    exists cls, msg. unfold run_script. rewrite main_run.
    rewrite fetch_standings_run, Hapi, Hloop. cbv beta iota zeta. rewrite Hrun.
    cbv beta iota zeta. cbn [exit_status]. eexists _, _. split; [done|]. split; [reflexivity|].
    unfold printed, failure_lines. cbn [stdout files api_calls].
    split; [reflexivity|]. split.
    + apply app_between. rewrite <-!app_assoc. reflexivity.
    + right. by rewrite <-app_assoc.
Qed.

Lemma main_fetch_failure_witness :
  (raises (fetch_standings timeout_api)
     (Exception "ReadTimeout" "Read timed out.") ∨
   ((∃ standings, returns (fetch_standings timeout_api) standings) ∧
    raises (fetch_advanced_stats timeout_api)
      (Exception "ReadTimeout" "Read timed out."))) ∧
  ∃ cls msg w' before,
    Exception "ReadTimeout" "Read timed out." = Exception cls msg ∧
    run_script timeout_api None empty_world = (1%Z, w') ∧
    files w' = files empty_world ∧
    stdout w'
    = stdout empty_world ++ before ++
      [ LF +:+ "  ERROR: NBA API call failed — " +:+ msg;
        "  Possible causes:";
        "    • No internet connection";
        "    • Rate limited — wait 60s and retry";
        "    • Season endpoint not yet available" ] ∧
    (api_calls w' = api_calls empty_world ++ ["leaguestandingsv3"] ∨
     api_calls w'
     = api_calls empty_world ++ ["leaguestandingsv3"; "leaguedashteamstats"]).
Proof.
  assert (raises (fetch_standings timeout_api)
            (Exception "ReadTimeout" "Read timed out.") ∨
          ((∃ standings, returns (fetch_standings timeout_api) standings) ∧
           raises (fetch_advanced_stats timeout_api)
             (Exception "ReadTimeout" "Read timed out."))) as H1.
  { left. exists empty_world, (fetch_standings timeout_api empty_world).2.
    vm_compute. reflexivity. }
  split; [exact H1|].
  exact (main_fetch_failure timeout_api None empty_world _ H1).
Defined.

(** ** Floats: rounding a small value never overflows *)

Local Open Scope Z_scope.

Lemma digits2_pos_size (p : positive) : digits2_pos p = Pos.size p.
Proof. induction p as [p IH|p IH|]; simpl; by rewrite ?IH. Qed.

Lemma Zdigits2_log2 (m : Z) : 0 < m → Zdigits2 m = Z.log2 m + 1.
Proof.
  destruct m as [|p|p]; try done. intros _. simpl.
  rewrite digits2_pos_size. destruct p; simpl; lia.
Qed.

Lemma Zdigits2_le (m k : Z) : 0 ≤ m → 0 ≤ k → m ≤ 2 ^ k → Zdigits2 m ≤ k + 1.
Proof.
  intros Hm Hk Hle. destruct (decide (m = 0)) as [->|Hne]; [simpl; lia|].
  rewrite Zdigits2_log2 by lia.
  assert (Z.log2 m ≤ Z.log2 (2 ^ k)) by (apply Z.log2_le_mono; lia).
  rewrite Z.log2_pow2 in * by lia. lia.
Qed.

Lemma fexp_binary64 (e : Z) : fexp prec emax e = Z.max (e - 53) (-1074).
Proof. reflexivity. Qed.

Lemma shr_m_of_loc (m : Z) (l : location) : shr_m (shr_record_of_loc m l) = m.
Proof. by destruct l as [|[]]. Qed.

Lemma shr_1_div2 (r : shr_record) : 0 ≤ shr_m r → shr_m (shr_1 r) = shr_m r / 2.
Proof.
  destruct r as [m b1 b2]. cbn [shr_m]. intros Hm.
  destruct m as [|[p|p|]|p]; cbn [shr_1 shr_m]; try done.
  - rewrite Pos2Z.inj_xI. apply (Z.div_unique _ _ _ 1); lia.
  - rewrite Pos2Z.inj_xO. apply (Z.div_unique _ _ _ 0); lia.
Qed.

Lemma shr_1_nonneg (r : shr_record) : 0 ≤ shr_m r → 0 ≤ shr_m (shr_1 r).
Proof. intros H. rewrite shr_1_div2 by done. by apply Z.div_pos. Qed.

Lemma shr_iter_nonneg (p : positive) (r : shr_record) :
  0 ≤ shr_m r → 0 ≤ shr_m (SpecFloat.iter_pos shr_1 p r).
Proof.
  revert r. induction p as [p IH|p IH|]; intros r Hr; cbn [SpecFloat.iter_pos];
    auto using shr_1_nonneg.
Qed.

Lemma shr_iter_div (p : positive) (r : shr_record) :
  0 ≤ shr_m r → shr_m (SpecFloat.iter_pos shr_1 p r) = shr_m r / 2 ^ Zpos p.
Proof.
  assert (∀ n, 0 < 2 ^ Zpos n) as Hpow by (intros; by apply Z.pow_pos_nonneg).
  revert r. induction p as [p IH|p IH|]; intros r Hr; cbn [SpecFloat.iter_pos].
  - rewrite IH by auto using shr_iter_nonneg, shr_1_nonneg.
    rewrite IH by auto using shr_1_nonneg.
    rewrite shr_1_div2 by done.
    rewrite !Zdiv_Zdiv by (pose proof (Hpow p); lia).
    f_equal. rewrite Pos2Z.inj_xI, <-Z.pow_add_r, <-Z.pow_succ_r by lia.
    f_equal. lia.
  - rewrite IH by auto using shr_iter_nonneg.
    rewrite IH by done.
    rewrite !Zdiv_Zdiv by (pose proof (Hpow p); lia).
    f_equal. rewrite Pos2Z.inj_xO, <-Z.pow_add_r by lia.
    f_equal. lia.
  - rewrite shr_1_div2 by done. by rewrite Z.pow_1_r.
Qed.

(** Shifting to the canonical exponent: the new exponent, and the mantissa
    that is left. *)
Lemma shr_fexp_spec (m e : Z) (l : location) :
  0 ≤ m →
  let e' := Z.max e (fexp prec emax (Zdigits2 m + e)) in
  (shr_fexp prec emax m e l).2 = e' ∧
  shr_m (shr_fexp prec emax m e l).1 = m / 2 ^ (e' - e).
Proof.
  intros Hm e'. unfold shr_fexp, shr. subst e'.
  set (f := fexp prec emax (Zdigits2 m + e)).
  destruct (f - e) as [|p|p] eqn:Hn; simpl.
  - replace (Z.max e f) with e by lia.
    rewrite Z.sub_diag, Z.pow_0_r, Z.div_1_r. by rewrite shr_m_of_loc.
  - replace (Z.max e f) with (e + Zpos p) by lia. split; [done|].
    rewrite shr_iter_div by (by rewrite shr_m_of_loc).
    rewrite shr_m_of_loc. do 2 f_equal. lia.
  - replace (Z.max e f) with e by lia.
    rewrite Z.sub_diag, Z.pow_0_r, Z.div_1_r. by rewrite shr_m_of_loc.
Qed.

Lemma shr_fexp_below (c m e : Z) (l : location) :
  -1074 ≤ c → below_pow2 c m e →
  below_pow2 c (shr_m (shr_fexp prec emax m e l).1)
             (shr_fexp prec emax m e l).2.
Proof.
  intros Hc (Hm & He & Hle).
  destruct (shr_fexp_spec m e l Hm) as [-> ->].
  pose proof (Zdigits2_le m (c - e) Hm ltac:(lia) Hle) as Hd.
  rewrite fexp_binary64.
  set (e' := Z.max e (Z.max (Zdigits2 m + e - 53) (-1074))).
  assert (e ≤ e' ≤ c) as He' by lia.
  repeat split; [|lia|].
  - apply Z.div_pos; [done|]. apply Z.pow_pos_nonneg; lia.
  - replace (c - e) with ((c - e') + (e' - e)) in Hle by lia.
    rewrite Z.pow_add_r in Hle by lia.
    apply Z.div_le_upper_bound; [apply Z.pow_pos_nonneg; lia|]. lia.
Qed.

Lemma round_nearest_even_below (c m e : Z) (l : location) :
  below_pow2 c m e → below_pow2 (c + 1) (round_nearest_even m l) e.
Proof.
  intros (Hm & He & Hle).
  assert (0 ≤ round_nearest_even m l ≤ m + 1) as [? ?].
  { destruct l as [|[]]; simpl; try lia. destruct (Z.even m); lia. }
  repeat split; [done|lia|].
  replace (c + 1 - e) with (Z.succ (c - e)) by lia.
  rewrite Z.pow_succ_r by lia.
  assert (0 < 2 ^ (c - e)) by (apply Z.pow_pos_nonneg; lia). lia.
Qed.

Lemma binary_round_aux_below (c : Z) (s : bool) (m e : Z) (l : location) :
  -1074 ≤ c → c + 1 ≤ 971 → below_pow2 c m e →
  float_below_pow2 (c + 1) (binary_round_aux prec emax s m e l).
Proof.
  intros Hc Hc' Hb. unfold binary_round_aux.
  pose proof (shr_fexp_below c m e l Hc Hb) as H1.
  destruct (shr_fexp prec emax m e l) as [r1 e1]. simpl in H1.
  apply (round_nearest_even_below _ _ _ (loc_of_shr_record r1)) in H1.
  apply (shr_fexp_below (c + 1) _ _ loc_Exact ltac:(lia)) in H1.
  destruct (shr_fexp prec emax _ e1 loc_Exact) as [r2 e2]. simpl in H1.
  destruct H1 as (Hm & He & Hle).
  destruct (shr_m r2) as [|p|p]; simpl; [done| |lia].
  replace (e2 <=? emax - prec) with true; [done|].
  symmetry. apply Z.leb_le. unfold emax, prec. lia.
Qed.

(** The float nearest to a ratio of at most [2^c] is a zero or finite and at
    most [2^(c+1)]. *)
Lemma float_of_ratio_below (c : Z) (s : bool) (a b : Z) :
  0 ≤ c → c + 1 ≤ 971 → 0 ≤ a → 0 < b → a ≤ 2 ^ c * b →
  float_below_pow2 (c + 1) (float_of_ratio s a b).
Proof.
  intros Hc Hc' Ha Hb Hab. unfold float_of_ratio, SFdiv_core_binary.
  set (e' := Z.min (fexp prec emax (Zdigits2 a + 0 - (Zdigits2 b + 0))) (0 - 0)).
  assert (e' ≤ 0) as He' by (subst e'; lia).
  set (m' := match 0 - 0 - e' with
             | Zpos _ => Z.shiftl a (0 - 0 - e')
             | 0 => a
             | Zneg _ => 0
             end).
  assert (m' = a * 2 ^ (- e')) as Hm'.
  { subst m'. destruct (0 - 0 - e') as [|p|p] eqn:Hs; [| |lia].
    - replace (- e') with 0 by lia. lia.
    - rewrite Z.shiftl_mul_pow2 by lia. do 2 f_equal. lia. }
  clearbody m'. subst m'.
  pose proof (Z_div_mod (a * 2 ^ (- e')) b ltac:(lia)) as Hdiv.
  destruct (Z.div_eucl (a * 2 ^ (- e')) b) as [q r].
  destruct Hdiv as [Hq Hr].
  apply binary_round_aux_below; [lia|lia|].
  assert (0 < 2 ^ (- e')) as Hpow by (apply Z.pow_pos_nonneg; lia).
  assert (0 ≤ q) as Hq0 by nia.
  repeat split; [done|lia|].
  replace (c - e') with (c + - e') by lia. rewrite Z.pow_add_r by lia.
  assert (0 < 2 ^ c) by (apply Z.pow_pos_nonneg; lia).
  apply Z.nlt_ge. intros Hlt.
  assert (b * (2 ^ c * 2 ^ (- e') + 1) ≤ b * q) by nia.
  nia.
Qed.

Lemma round_half_even_bounds (n d : Z) :
  0 ≤ n → 0 < d → 0 ≤ round_half_even n d ≤ n / d + 1.
Proof.
  intros Hn Hd. unfold round_half_even.
  assert (0 ≤ n / d) by (apply Z.div_pos; lia).
  destruct (2 * (n mod d) ?= d); [destruct (Z.even (n / d))|..]; lia.
Qed.

(** ** fetch_standings: the win percentage *)

(** Dividing [a] by a larger positive [b] never raises and gives at most 2. *)
Lemma int_truediv_small (a b : Z) :
  0 ≤ a → 0 < b → a ≤ b →
  ∃ q, int_truediv a b = inr q ∧ float_below_pow2 1 q.
Proof.
  intros Ha Hb Hab. unfold int_truediv.
  destruct (Z.eqb_spec b 0) as [->|_]; [lia|].
  rewrite (Z.abs_eq a), (Z.abs_eq b) by lia.
  pose proof (float_of_ratio_below 0 (xorb (a <? 0) (b <? 0)) a b
                ltac:(lia) ltac:(lia) Ha Hb ltac:(lia)) as Hq.
  destruct (float_of_ratio _ a b) as [s|s| |s m e]; try done; eauto.
Qed.

(** Rounding a float of at most 2 to three decimals never raises. *)
Lemma float_round_small (q : float) :
  float_below_pow2 1 q →
  ∃ r, float_round q 3 = inr r ∧ float_below_pow2 3 r.
Proof.
  destruct q as [s|s| |s m e]; try done; [by eexists|].
  intros (_ & He & Hm). unfold float_round.
  change (3 >? NDIGITS_MAX) with false. change (3 <? NDIGITS_MIN) with false.
  change (0 <=? 3) with true. cbv beta iota.
  unfold float_of_decimal. change (0 <=? - (3)) with false. cbv beta iota.
  change (10 ^ (- - (3))) with 1000. change (10 ^ 3) with 1000.
  assert (∀ k, 0 ≤ k ≤ 2001 →
            ∃ r, match float_of_ratio s k 1000 with
                 | S754_infinity _ =>
                     inl (Exception "OverflowError"
                            "rounded value too large to represent")
                 | r => inr r
                 end = inr r ∧ float_below_pow2 3 r) as Hfin.
  { intros k Hk.
    pose proof (float_of_ratio_below 2 s k 1000
                  ltac:(lia) ltac:(lia) ltac:(lia) ltac:(lia) ltac:(lia)) as Hr.
    destruct (float_of_ratio s k 1000) as [s'|s'| |s' m' e']; try done; eauto. }
  unfold float_frac. destruct (Z.leb_spec 0 e) as [He0|He0]; apply Hfin.
  - assert (Z.pos m * 2 ^ e ≤ 2).
    { assert (e = 0 ∨ e = 1) as [->| ->] by lia; simpl in Hm; lia. }
    pose proof (round_half_even_bounds (Z.pos m * 2 ^ e * 1000) 1
                  ltac:(lia) ltac:(lia)) as Hb.
    rewrite Z.div_1_r in Hb. lia.
  - assert (0 < 2 ^ (- e)) as Hpow by (apply Z.pow_pos_nonneg; lia).
    pose proof (round_half_even_bounds (Z.pos m * 1000) (2 ^ (- e))
                  ltac:(lia) Hpow) as Hb.
    assert (Z.pos m * 1000 / 2 ^ (- e) ≤ 2000); [|lia].
    apply Z.div_le_upper_bound; [done|].
    replace (1 - e) with (Z.succ (- e)) in Hm by lia.
    rewrite Z.pow_succ_r in Hm by lia. lia.
Qed.

(** C1: for wins [w >= 0] and losses [l >= 0] with [w + l > 0], the division
    [w / (w + l)] and the rounding to three decimals both succeed and
    [w_pct] is [round(w / (w + l), 3)]; when [w + l = 0] it is [0.0].  The
    division by zero is never reached. *)
Theorem w_pct_spec (wins losses : Z) :
  0 ≤ wins → 0 ≤ losses →
  (0 < wins + losses →
   ∃ q r, int_truediv wins (wins + losses) = inr q ∧
          float_round q 3 = inr r ∧
          w_pct wins losses = inr r) ∧
  (wins + losses = 0 → w_pct wins losses = inr float_zero).
Proof.
  intros Hw Hl. unfold w_pct. split.
  - intros Hpos.
    destruct (int_truediv_small wins (wins + losses)) as (q & Hq & Hsmall);
      [lia..|].
    destruct (float_round_small q Hsmall) as (r & Hr & _).
    exists q, r. repeat split; [done..|].
    replace (wins + losses >? 0) with true by (symmetry; lia).
    rewrite Hq. exact Hr.
  - intros ->. reflexivity.
Qed.

Lemma w_pct_spec_witness :
  0 ≤ 3 ∧ 0 ≤ 2 ∧
  (0 < 3 + 2 →
   ∃ q r, int_truediv 3 (3 + 2) = inr q ∧
          float_round q 3 = inr r ∧
          w_pct 3 2 = inr r) ∧
  (3 + 2 = 0 → w_pct 3 2 = inr float_zero).
Proof.
  split; [lia|]. split; [lia|].
  apply (w_pct_spec 3 2); lia.
Defined.

(** ** The model on concrete inputs *)

Example w_pct_3_2 : w_pct 3 2 = inr (float_lit 6 (-1)).
Proof. vm_compute. reflexivity. Qed.

Example w_pct_1_2 : float_repr <$> w_pct 1 2 = inr "0.333"%string.
Proof. vm_compute. reflexivity. Qed.

Example w_pct_1_15 : float_repr <$> w_pct 1 15 = inr "0.062"%string.
Proof. vm_compute. reflexivity. Qed.

Example w_pct_0_0 : w_pct 0 0 = inr float_zero.
Proof. reflexivity. Qed.

Example float_round_2675 :
  float_repr <$> float_round (float_lit 2675 (-3)) 2 = inr "2.67"%string.
Proof. vm_compute. reflexivity. Qed.

Example float_repr_samples :
  float_repr <$> [ float_lit 6 (-1); float_lit 1100 (-1); float_lit 55 (-2);
                   float_lit 1 16; float_lit 1 (-5); float_lit 1 22 ]
  = [ "0.6"; "110.0"; "0.55"; "1e+16"; "1e-05"; "1e+22" ]%string.
Proof. vm_compute. reflexivity. Qed.

Example csv_field_quoted :
  csv_record ["a,b"; "c"]%string
  = String QUOTECHAR ("a,b" +:+ String QUOTECHAR (",c" +:+ CR +:+ LF)).
Proof. reflexivity. Qed.

Example sample_rows_order :
  TEAM_NAME <$> list_sort TEAM_NAME str_lt
                  (joined sample_standings sample_advanced)
  = [ "Bulls"; "Hawks" ]%string.
Proof. vm_compute. reflexivity. Qed.

Example unmatched_run_exit_status :
  (run_script unmatched_api None empty_world).1 = 1.
Proof. vm_compute. reflexivity. Qed.

(** * Further properties of the script *)

(** The sample responses meet the conditions on the rows. *)
Lemma sample_standings_df_nonneg :
  ∀ row, row ∈ sample_standings_df → 0 ≤ WINS row ∧ 0 ≤ LOSSES row.
Proof. apply Forall_forall. repeat constructor; simpl; lia. Qed.

Lemma sample_stats_df_moderate :
  ∀ row, row ∈ sample_stats_df → stats_row_moderate row.
Proof.
  apply Forall_forall.
  repeat apply Forall_cons_2; [..|apply Forall_nil_2]; repeat split;
    by vm_compute.
Qed.

(** ** Floats: rounding is exact at a power of two *)

Lemma shr_1_exact (r : shr_record) (j : Z) :
  loc_of_shr_record r = loc_Exact → shr_m r = 2 * j →
  loc_of_shr_record (shr_1 r) = loc_Exact.
Proof.
  destruct r as [m [] []]; try done. cbn [shr_m]. intros _ Hm.
  destruct m as [|[p|p|]|[p|p|]]; cbn [shr_1]; try done; lia.
Qed.

Lemma shr_iter_exact (p : positive) (r : shr_record) (j : Z) :
  0 ≤ shr_m r →
  loc_of_shr_record r = loc_Exact → shr_m r = j * 2 ^ Zpos p →
  loc_of_shr_record (SpecFloat.iter_pos shr_1 p r) = loc_Exact.
Proof.
  assert (∀ n, 0 < 2 ^ Zpos n) as Hpow by (intros; by apply Z.pow_pos_nonneg).
  revert r j. induction p as [p IH|p IH|]; intros r j Hr Hloc Hm;
    cbn [SpecFloat.iter_pos].
  - assert (2 ^ Z.pos p~1 = 2 * (2 ^ Z.pos p * 2 ^ Z.pos p)) as Hp.
    { rewrite Pos2Z.inj_xI, <-Z.pow_add_r, <-Z.pow_succ_r by lia.
      f_equal. lia. }
    rewrite Hp in Hm.
    assert (shr_m (shr_1 r) = j * 2 ^ Z.pos p * 2 ^ Z.pos p) as H1.
    { rewrite shr_1_div2 by done.
      symmetry. apply Z.div_unique_exact; lia. }
    apply (IH _ j).
    + auto using shr_iter_nonneg, shr_1_nonneg.
    + apply (IH _ (j * 2 ^ Z.pos p)); [by apply shr_1_nonneg| |done].
      apply (shr_1_exact _ (j * 2 ^ Z.pos p * 2 ^ Z.pos p)); [done|lia].
    + rewrite shr_iter_div by (by apply shr_1_nonneg). rewrite H1.
      apply Z.div_mul. pose proof (Hpow p). lia.
  - assert (2 ^ Z.pos p~0 = 2 ^ Z.pos p * 2 ^ Z.pos p) as Hp.
    { rewrite Pos2Z.inj_xO, <-Z.pow_add_r by lia. f_equal. lia. }
    rewrite Hp in Hm.
    apply (IH _ j).
    + by apply shr_iter_nonneg.
    + apply (IH _ (j * 2 ^ Z.pos p)); [done..|lia].
    + rewrite shr_iter_div by done. rewrite Hm, Z.mul_assoc.
      apply Z.div_mul. pose proof (Hpow p). lia.
  - apply (shr_1_exact _ j); [done|]. rewrite Z.pow_1_r in Hm. lia.
Qed.

(** Shifting a mantissa that the shift divides loses nothing. *)
Lemma shr_fexp_exact (m e j : Z) :
  0 ≤ m →
  m = j * 2 ^ ((shr_fexp prec emax m e loc_Exact).2 - e) →
  loc_of_shr_record (shr_fexp prec emax m e loc_Exact).1 = loc_Exact.
Proof.
  intros Hm. unfold shr_fexp, shr.
  destruct (fexp prec emax (Zdigits2 m + e) - e) as [|p|p] eqn:Hn;
    cbn [fst snd]; try done.
  intros Hj. apply (shr_iter_exact _ _ j); [done..|].
  cbn [shr_record_of_loc shr_m]. rewrite Hj at 1. do 2 f_equal. lia.
Qed.

Lemma shr_fexp_exact_or_below (c m e : Z) (l : location) :
  -1074 ≤ c → exact_or_below c m e l →
  exact_or_below c (shr_m (shr_fexp prec emax m e l).1)
    (shr_fexp prec emax m e l).2
    (loc_of_shr_record (shr_fexp prec emax m e l).1).
Proof.
  intros Hc (Hm & He & Hcase).
  assert (below_pow2 c m e) as Hb by (repeat split; [done..|lia]).
  destruct (shr_fexp_below c m e l Hc Hb) as (H0 & He1 & Hle).
  repeat split; [done..|].
  destruct (shr_fexp_spec m e l Hm) as [He' Hm'].
  rewrite <-He' in Hm'. rewrite Hm'.
  set (e1 := (shr_fexp prec emax m e l).2) in *.
  assert (e ≤ e1) as Hee by lia.
  assert (2 ^ (c - e) = 2 ^ (c - e1) * 2 ^ (e1 - e)) as Hsplit.
  { rewrite <-Z.pow_add_r by lia. f_equal. lia. }
  assert (0 < 2 ^ (e1 - e)) as Hpow by (apply Z.pow_pos_nonneg; lia).
  destruct Hcase as [Hlt|[Heq ->]].
  - left. apply Z.div_lt_upper_bound; [done|]. lia.
  - right. split.
    + rewrite Heq, Hsplit. by apply Z.div_mul, Z.neq_sym, Z.lt_neq.
    + apply (shr_fexp_exact _ _ (2 ^ (c - e1))); [done|].
      fold e1. by rewrite Heq.
Qed.

Lemma round_nearest_even_tight (c m e : Z) (l : location) :
  exact_or_below c m e l → below_pow2 c (round_nearest_even m l) e.
Proof.
  intros (Hm & He & Hcase).
  assert (0 ≤ round_nearest_even m l ≤ m + 1) as [? ?].
  { destruct l as [|[]]; simpl; try lia. destruct (Z.even m); lia. }
  repeat split; [done..|].
  destruct Hcase as [Hlt|[Heq ->]]; [lia|]. simpl. lia.
Qed.

Lemma binary_round_aux_tight (c : Z) (s : bool) (m e : Z) (l : location) :
  -1074 ≤ c → c ≤ 971 → exact_or_below c m e l →
  float_below_pow2 c (binary_round_aux prec emax s m e l).
Proof.
  intros Hc Hc' Hb. unfold binary_round_aux.
  pose proof (shr_fexp_exact_or_below c m e l Hc Hb) as H1.
  destruct (shr_fexp prec emax m e l) as [r1 e1]. cbn [fst snd] in H1.
  apply round_nearest_even_tight in H1.
  apply (shr_fexp_below c _ _ loc_Exact Hc) in H1.
  destruct (shr_fexp prec emax _ e1 loc_Exact) as [r2 e2]. cbn [fst snd] in H1.
  destruct H1 as (Hm & He & Hle).
  destruct (shr_m r2) as [|p|p]; simpl; [done| |lia].
  replace (e2 <=? emax - prec) with true; [done|].
  symmetry. apply Z.leb_le. unfold emax, prec. lia.
Qed.

Lemma div_eucl_div_mod (a b : Z) : Z.div_eucl a b = (a / b, a mod b).
Proof. unfold Z.div, Z.modulo. by destruct (Z.div_eucl a b). Qed.

Lemma new_location_0 (n : Z) : new_location n 0 = loc_Exact.
Proof. unfold new_location. by destruct (Z.even n). Qed.

(** The dividend [a * 2^s] that [SFdiv_core_binary] divides by [b]. *)
Lemma SFdiv_core_binary_eq (a b : Z) :
  ∃ e', e' ≤ 0 ∧
    SFdiv_core_binary prec emax a 0 b 0
    = ((a * 2 ^ (- e')) / b, e', new_location b ((a * 2 ^ (- e')) mod b)).
Proof.
  unfold SFdiv_core_binary.
  set (e' := Z.min (fexp prec emax (Zdigits2 a + 0 - (Zdigits2 b + 0))) (0 - 0)).
  exists e'. split; [subst e'; lia|].
  assert (match 0 - 0 - e' with
          | Zpos _ => Z.shiftl a (0 - 0 - e')
          | 0 => a
          | Zneg _ => 0
          end = a * 2 ^ (- e')) as ->.
  { assert (e' ≤ 0) by (subst e'; lia).
    destruct (0 - 0 - e') as [|p|p] eqn:Hs; [| |lia].
    - replace (- e') with 0 by lia. lia.
    - rewrite Z.shiftl_mul_pow2 by lia. do 2 f_equal. lia. }
  by rewrite div_eucl_div_mod.
Qed.

(** The float nearest to a ratio of at most [2^c] is at most [2^c]. *)
Lemma float_of_ratio_tight (c : Z) (s : bool) (a b : Z) :
  0 ≤ c → c ≤ 971 → 0 ≤ a → 0 < b → a ≤ 2 ^ c * b →
  float_below_pow2 c (float_of_ratio s a b).
Proof.
  intros Hc Hc' Ha Hb Hab. unfold float_of_ratio.
  destruct (SFdiv_core_binary_eq a b) as (e' & He' & ->).
  apply binary_round_aux_tight; [lia..|].
  assert (0 < 2 ^ (- e')) as Hpow by (apply Z.pow_pos_nonneg; lia).
  assert (0 < 2 ^ c) as Hpowc by (apply Z.pow_pos_nonneg; lia).
  pose proof (Z.div_mod (a * 2 ^ (- e')) b ltac:(lia)) as Hdiv.
  pose proof (Z.mod_pos_bound (a * 2 ^ (- e')) b Hb) as Hmod.
  set (q := a * 2 ^ (- e') / b) in *. set (r := (a * 2 ^ (- e')) mod b) in *.
  unfold exact_or_below.
  replace (c - e') with (c + - e') by lia. rewrite Z.pow_add_r by lia.
  assert (0 ≤ q) as Hq0 by nia.
  repeat split; [done|lia|].
  destruct (Z.lt_trichotomy q (2 ^ c * 2 ^ (- e'))) as [Hlt|[Heq|Hgt]].
  - by left.
  - right. split; [done|].
    assert (r = 0) as -> by nia. apply new_location_0.
  - exfalso. assert (b * (2 ^ c * 2 ^ (- e') + 1) ≤ b * q) by nia. nia.
Qed.

Lemma float_of_ratio_sign (s : bool) (a b : Z) :
  match float_of_ratio s a b with
  | S754_zero s' | S754_infinity s' | S754_finite s' _ _ => s' = s
  | S754_nan => True
  end.
Proof.
  unfold float_of_ratio. destruct (SFdiv_core_binary prec emax a 0 b 0) as [[m e] l].
  unfold binary_round_aux.
  destruct (shr_fexp prec emax m e l) as [r1 e1].
  destruct (shr_fexp prec emax _ e1 loc_Exact) as [r2 e2].
  destruct (shr_m r2); [done| |done].
  by destruct (e2 <=? emax - prec).
Qed.

Lemma round_half_even_le (n d c : Z) :
  0 ≤ n → 0 < d → n ≤ c * d → 0 ≤ round_half_even n d ≤ c.
Proof.
  intros Hn Hd Hle. unfold round_half_even.
  pose proof (Z.div_mod n d ltac:(lia)) as Hdiv.
  pose proof (Z.mod_pos_bound n d Hd) as Hmod.
  assert (0 ≤ n / d) by (apply Z.div_pos; lia).
  assert (n / d < c ∨ (n / d = c ∧ n mod d = 0)) as [Hlt|[Heq Hr]] by nia.
  - destruct (2 * (n mod d) ?= d); [destruct (Z.even (n / d))|..]; lia.
  - rewrite Hr. simpl. destruct d; try done. lia.
Qed.

(** ** fetch_standings: the range and the end points of the win percentage *)

(** Rounding a float of [0.0, 1.0] to three decimals stays in [0.0, 1.0]. *)
Lemma float_round_in_unit (q : float) :
  float_in_unit q → ∃ r, float_round q 3 = inr r ∧ float_in_unit r.
Proof.
  destruct q as [[]|[]| |[] m e]; try done; [by eexists|].
  intros (_ & He & Hm). unfold float_round.
  change (3 >? NDIGITS_MAX) with false. change (3 <? NDIGITS_MIN) with false.
  change (0 <=? 3) with true. cbv beta iota.
  unfold float_of_decimal. change (0 <=? - (3)) with false. cbv beta iota.
  change (10 ^ (- - (3))) with 1000. change (10 ^ 3) with 1000.
  assert (∀ k, 0 ≤ k ≤ 1000 →
            ∃ r, match float_of_ratio false k 1000 with
                 | S754_infinity _ =>
                     inl (Exception "OverflowError"
                            "rounded value too large to represent")
                 | r => inr r
                 end = inr r ∧ float_in_unit r) as Hfin.
  { intros k Hk.
    pose proof (float_of_ratio_tight 0 false k 1000
                  ltac:(lia) ltac:(lia) ltac:(lia) ltac:(lia) ltac:(lia)) as Hr.
    pose proof (float_of_ratio_sign false k 1000) as Hs.
    destruct (float_of_ratio false k 1000) as [s'|s'| |s' m' e'];
      try done; subst s'; eauto. }
  unfold float_frac. destruct (Z.leb_spec 0 e) as [He0|He0]; apply Hfin.
  - assert (e = 0) as -> by lia. simpl in Hm.
    apply round_half_even_le; lia.
  - assert (0 < 2 ^ (- e)) as Hpow by (apply Z.pow_pos_nonneg; lia).
    replace (0 - e) with (- e) in Hm by lia.
    apply round_half_even_le; lia.
Qed.

(** X1: for wins and losses that are not negative, computing the win
    percentage never raises and gives a float between [0.0] and [1.0]. *)
Theorem w_pct_in_unit (wins losses : Z) :
  0 ≤ wins → 0 ≤ losses →
  ∃ r, w_pct wins losses = inr r ∧ float_in_unit r.
Proof.
  intros Hw Hl. unfold w_pct.
  destruct (Z.gtb_spec (wins + losses) 0) as [Hpos|Hzero]; [|by eexists].
  unfold int_truediv.
  destruct (Z.eqb_spec (wins + losses) 0) as [?|_]; [lia|].
  rewrite (Z.abs_eq wins), (Z.abs_eq (wins + losses)) by lia.
  replace (wins <? 0) with false by (symmetry; lia).
  replace (wins + losses <? 0) with false by (symmetry; lia).
  cbn [xorb].
  pose proof (float_of_ratio_tight 0 false wins (wins + losses)
                ltac:(lia) ltac:(lia) Hw ltac:(lia) ltac:(lia)) as Hq.
  pose proof (float_of_ratio_sign false wins (wins + losses)) as Hs.
  destruct (float_of_ratio false wins (wins + losses)) as [s|s| |s m e] eqn:E;
    try done; subst s.
  - by eexists.
  - apply (float_round_in_unit (S754_finite false m e)). exact Hq.
Qed.

Lemma w_pct_in_unit_witness :
  0 ≤ 41 ∧ 0 ≤ 41 ∧ ∃ r, w_pct 41 41 = inr r ∧ float_in_unit r.
Proof.
  split; [lia|]. split; [lia|]. apply (w_pct_in_unit 41 41); lia.
Defined.

Lemma float_of_ratio_same (a : Z) : 0 < a → float_of_ratio false a a = float_one.
Proof.
  intros Ha. unfold float_of_ratio, SFdiv_core_binary.
  replace (Zdigits2 a + 0 - (Zdigits2 a + 0)) with 0 by lia.
  change (Z.min (fexp prec emax 0) (0 - 0)) with (-53).
  change (0 - 0 - -53) with 53. cbv beta iota zeta.
  rewrite Z.shiftl_mul_pow2, div_eucl_div_mod by lia.
  rewrite (Z.mul_comm a), Z.div_mul, Z.mod_mul by lia.
  rewrite new_location_0. vm_compute. reflexivity.
Qed.

Lemma float_of_ratio_zero (s : bool) (b : Z) :
  float_of_ratio s 0 b = S754_zero s.
Proof.
  unfold float_of_ratio.
  destruct (SFdiv_core_binary_eq 0 b) as (e' & He' & ->).
  rewrite Z.mul_0_l, Zdiv_0_l, Zmod_0_l, new_location_0.
  unfold binary_round_aux.
  pose proof (shr_fexp_spec 0 e' loc_Exact ltac:(lia)) as [_ Hm1].
  pose proof (shr_fexp_exact 0 e' 0 ltac:(lia) ltac:(lia)) as Hl1.
  destruct (shr_fexp prec emax 0 e' loc_Exact) as [r1 e1].
  cbn [fst snd] in *. rewrite Hm1, Hl1, Zdiv_0_l. cbn [round_nearest_even].
  pose proof (shr_fexp_spec 0 e1 loc_Exact ltac:(lia)) as [_ Hm2].
  destruct (shr_fexp prec emax 0 e1 loc_Exact) as [r2 e2].
  cbn [fst snd] in *. by rewrite Hm2, Zdiv_0_l.
Qed.

(** X2: a team without losses that has played gets exactly [1.0], a team
    without wins exactly [0.0]. *)
Theorem w_pct_end_points (n : Z) :
  0 < n →
  w_pct n 0 = inr float_one ∧ w_pct 0 n = inr float_zero.
Proof.
  intros Hn. unfold w_pct, int_truediv.
  rewrite Z.add_0_r, Z.add_0_l.
  replace (n >? 0) with true by (symmetry; lia).
  replace (n =? 0) with false by (symmetry; lia).
  replace (n <? 0) with false by (symmetry; lia).
  rewrite (Z.abs_eq n) by lia. change (Z.abs 0) with 0.
  change (0 <? 0) with false. cbn [xorb].
  rewrite float_of_ratio_same, float_of_ratio_zero by done.
  split; [vm_compute; reflexivity|reflexivity].
Qed.

Lemma w_pct_end_points_witness :
  0 < 82 ∧ w_pct 82 0 = inr float_one ∧ w_pct 0 82 = inr float_zero.
Proof. split; [lia|]. apply (w_pct_end_points 82). lia. Defined.

(** ** fetch_standings and fetch_advanced_stats: the dicts they build *)

Lemma str_of_int_inj (a b : Z) : str_of_int a = str_of_int b → a = b.
Proof. unfold str_of_int. apply pretty_Z_inj. Qed.

Lemma dict_set_elem_of {V} (k k' : string) (v v' : V) (d : dict V) :
  (k', v') ∈ dict_set k v d → (k', v') = (k, v) ∨ (k', v') ∈ d.
Proof.
  induction d as [|[k0 v0] d IH]; simpl.
  - intros ?%list_elem_of_singleton. by left.
  - destruct (decide (k = k0)) as [->|Hne].
    + intros [?|?]%elem_of_cons; [by left|right]. by apply list_elem_of_further.
    + intros [Heq|Hin]%elem_of_cons.
      * right. rewrite Heq. apply list_elem_of_here.
      * destruct (IH Hin) as [?|?]; [by left|right].
        by apply list_elem_of_further.
Qed.

Lemma fetch_standings_loop_cons row df standings :
  fetch_standings_loop (row :: df) standings
  = (s ← standing_of_row row;
     fetch_standings_loop df (dict_set (str_of_int (TEAMID row)) s standings)).
Proof.
  cbn [fetch_standings_loop]. unfold standing_of_row.
  by destruct (w_pct (WINS row) (LOSSES row)).
Qed.

Lemma fetch_advanced_stats_loop_cons row df stats :
  fetch_advanced_stats_loop (row :: df) stats
  = (r ← advanced_of_row row;
     fetch_advanced_stats_loop df
       (dict_set (str_of_int (df_TEAM_ID row)) r stats)).
Proof.
  cbn [fetch_advanced_stats_loop]. unfold advanced_of_row.
  repeat match goal with
  | |- context [float_round ?x ?n] =>
      destruct (float_round x n) as [?|?]; [done|]; simpl
  end.
  reflexivity.
Qed.

(** Both loops are one loop: each row gives a key and a record, stored with
    [dict_set]. *)
Section FetchLoop.
Context {R V : Type} (key : R → Z) (record : R → result V).
Context (loop : list R → dict V → result (dict V)).
Hypothesis loop_nil : ∀ d, loop [] d = inr d.
Hypothesis loop_cons : ∀ row df d,
  loop (row :: df) d
  = (v ← record row; loop df (dict_set (str_of_int (key row)) v d)).

Lemma loop_app df1 df2 d :
  loop (df1 ++ df2) d = (d1 ← loop df1 d; loop df2 d1).
Proof using loop_nil loop_cons.
  revert d. induction df1 as [|row df1 IH]; intros d; simpl.
  - by rewrite loop_nil.
  - rewrite !loop_cons. destruct (record row) as [e|v]; [done|]. apply IH.
Qed.

Lemma loop_get_other df d d' (k : string) :
  loop df d = inr d' →
  (∀ row, row ∈ df → str_of_int (key row) ≠ k) →
  dict_get k d' = dict_get k d.
Proof using loop_nil loop_cons.
  revert d. induction df as [|row df IH]; intros d.
  - rewrite loop_nil. by intros [= <-].
  - rewrite loop_cons. destruct (record row) as [e|v]; [done|]. simpl.
    intros Hloop Hne. rewrite (IH _ Hloop).
    + rewrite dict_get_set, decide_False; [done|].
      intros Heq. by apply (Hne row (list_elem_of_here _ _)).
    + intros row' Hin. by apply Hne, list_elem_of_further.
Qed.

(** The record of a key is the one of the last row with this key. *)
Lemma loop_last_row_wins df1 row df2 d d' :
  loop (df1 ++ row :: df2) d = inr d' →
  (∀ row', row' ∈ df2 → key row' ≠ key row) →
  ∃ v, record row = inr v ∧ dict_get (str_of_int (key row)) d' = Some v.
Proof using loop_nil loop_cons.
  rewrite loop_app. destruct (loop df1 d) as [e|d1]; [done|]. simpl.
  rewrite loop_cons. destruct (record row) as [e|v]; [done|]. simpl.
  intros Hloop Hne. exists v. split; [done|].
  rewrite (loop_get_other _ _ _ _ Hloop).
  - by rewrite dict_get_set, decide_True.
  - intros row' Hin Heq. by apply (Hne row' Hin), str_of_int_inj.
Qed.

(** With distinct keys in the rows, the dict has the keys in row order after
    those it had. *)
Lemma loop_keys_distinct df d d' :
  loop df d = inr d' →
  NoDup (key <$> df) →
  (∀ row, row ∈ df → str_of_int (key row) ∉ dict_keys d) →
  dict_keys d' = dict_keys d ++ ((λ row, str_of_int (key row)) <$> df).
Proof using loop_nil loop_cons.
  revert d. induction df as [|row df IH]; intros d.
  - rewrite loop_nil. intros [= <-] _ _. by rewrite app_nil_r.
  - rewrite loop_cons. destruct (record row) as [e|v]; [done|]. simpl.
    intros Hloop [Hrow Hnodup]%NoDup_cons Hfresh.
    rewrite (IH _ Hloop Hnodup).
    + rewrite dict_set_keys, decide_False, <-app_assoc; [done|].
      apply Hfresh, list_elem_of_here.
    + intros row' Hin. rewrite dict_set_keys, decide_False
        by apply Hfresh, list_elem_of_here.
      rewrite elem_of_app, list_elem_of_singleton. intros [Hold|Heq].
      * by apply (Hfresh row' (list_elem_of_further _ _ _ Hin)).
      * apply str_of_int_inj in Heq. apply Hrow.
        rewrite <-Heq. by apply list_elem_of_fmap_2.
Qed.

(** Every key of the dict was there before or is the key of a row. *)
Lemma loop_keys_from df d d' (k : string) :
  loop df d = inr d' →
  k ∈ dict_keys d' →
  k ∈ dict_keys d ∨ ∃ row, row ∈ df ∧ k = str_of_int (key row).
Proof using loop_nil loop_cons.
  revert d. induction df as [|row df IH]; intros d.
  - rewrite loop_nil. intros [= <-]. by left.
  - rewrite loop_cons. destruct (record row) as [e|v]; [done|]. simpl.
    intros Hloop Hk. destruct (IH _ Hloop Hk) as [Hold|(row' & Hin & ->)].
    + rewrite dict_set_keys in Hold. destruct (decide _); [by left|].
      apply elem_of_app in Hold as [?|Hnew]; [by left|].
      apply list_elem_of_singleton in Hnew as ->.
      right. exists row. split; [apply list_elem_of_here|done].
    + right. exists row'. split; [by apply list_elem_of_further|done].
Qed.

(** Every item of the dict was there before or is the record of a row. *)
Lemma loop_items_from df d d' (k : string) (v : V) :
  loop df d = inr d' →
  (k, v) ∈ d' →
  (k, v) ∈ d ∨ ∃ row, row ∈ df ∧ record row = inr v.
Proof using loop_nil loop_cons.
  revert d. induction df as [|row df IH]; intros d.
  - rewrite loop_nil. intros [= <-]. by left.
  - rewrite loop_cons. destruct (record row) as [e|v0] eqn:Hrec; [done|].
    simpl. intros Hloop Hk.
    destruct (IH _ Hloop Hk) as [Hold|(row' & Hin & Hv)].
    + apply dict_set_elem_of in Hold as [[= -> ->]|?]; [|by left].
      right. exists row. split; [apply list_elem_of_here|done].
    + right. exists row'. split; [by apply list_elem_of_further|done].
Qed.

(** The loop raises only if the record of some row does. *)
Lemma loop_total df d :
  (∀ row, row ∈ df → ∃ v, record row = inr v) →
  ∃ d', loop df d = inr d'.
Proof using loop_nil loop_cons.
  revert d. induction df as [|row df IH]; intros d Hok.
  - rewrite loop_nil. by eexists.
  - rewrite loop_cons.
    destruct (Hok row (list_elem_of_here _ _)) as [v ->]. simpl.
    apply IH. intros row' Hin. by apply Hok, list_elem_of_further.
Qed.


End FetchLoop.

Lemma dict_set_length {V} (k : string) (v : V) (d : dict V) :
  (length (dict_set k v d) ≤ S (length d))%nat.
Proof.
  induction d as [|[k0 v0] d IH]; simpl; [lia|].
  destruct (decide (k = k0)); simpl; lia.
Qed.

Lemma fetch_standings_loop_length df standings standings' :
  fetch_standings_loop df standings = inr standings' →
  (dict_len standings' ≤ dict_len standings + length df)%nat.
Proof.
  unfold dict_len. revert standings.
  induction df as [|row df IH]; intros standings.
  - intros [= <-]. simpl. lia.
  - rewrite fetch_standings_loop_cons.
    destruct (standing_of_row row) as [e|s]; [done|]. simpl.
    intros Hloop%IH. pose proof (dict_set_length (str_of_int (TEAMID row)) s
      standings). simpl. lia.
Qed.

Lemma fetch_advanced_stats_loop_length df stats stats' :
  fetch_advanced_stats_loop df stats = inr stats' →
  (dict_len stats' ≤ dict_len stats + length df)%nat.
Proof.
  unfold dict_len. revert stats. induction df as [|row df IH]; intros stats.
  - intros [= <-]. simpl. lia.
  - rewrite fetch_advanced_stats_loop_cons.
    destruct (advanced_of_row row) as [e|s]; [done|]. simpl.
    intros Hloop%IH. pose proof (dict_set_length (str_of_int (df_TEAM_ID row))
      s stats). simpl. lia.
Qed.

Lemma standing_of_row_inr row s :
  standing_of_row row = inr s ↔
  ∃ w, w_pct (WINS row) (LOSSES row) = inr w ∧
       s = {| st_TEAM_NAME := TEAMNAME row; st_W_PCT := w |}.
Proof.
  unfold standing_of_row.
  destruct (w_pct (WINS row) (LOSSES row)) as [e|w]; simpl.
  - split; [done|]. by intros (? & ? & _).
  - split; [intros [= <-]; eauto|]. by intros (? & [= <-] & ->).
Qed.

(** X3: when several rows of the standings response have the same team id,
    the dict holds, under that id, the name and the win percentage of the
    last of them. *)
Theorem fetch_standings_last_row_wins (api : nba_api) df1 row df2 standings :
  LeagueStandingsV3 api = inr (df1 ++ row :: df2) →
  returns (fetch_standings api) standings →
  (∀ row', row' ∈ df2 → TEAMID row' ≠ TEAMID row) →
  ∃ w, w_pct (WINS row) (LOSSES row) = inr w ∧
       dict_get (str_of_int (TEAMID row)) standings
       = Some {| st_TEAM_NAME := TEAMNAME row; st_W_PCT := w |}.
Proof.
  intros Hapi (df & Hdf & Hloop)%fetch_standings_returns Hlast.
  rewrite Hapi in Hdf. injection Hdf as <-.
  destruct (loop_last_row_wins TEAMID standing_of_row fetch_standings_loop
              (λ _, eq_refl) fetch_standings_loop_cons _ _ _ _ _ Hloop Hlast)
    as (s & (w & Hw & ->)%standing_of_row_inr & Hget).
  by exists w.
Qed.

Lemma fetch_standings_last_row_wins_witness :
  LeagueStandingsV3 repeated_api
  = inr ([repeated_old_row] ++ repeated_new_row :: [repeated_other_row]) ∧
  returns (fetch_standings repeated_api) repeated_standings ∧
  (∀ row', row' ∈ [repeated_other_row] →
           TEAMID row' ≠ TEAMID repeated_new_row) ∧
  ∃ w, w_pct (WINS repeated_new_row) (LOSSES repeated_new_row) = inr w ∧
       dict_get (str_of_int (TEAMID repeated_new_row)) repeated_standings
       = Some {| st_TEAM_NAME := TEAMNAME repeated_new_row; st_W_PCT := w |}.
Proof.
  assert (LeagueStandingsV3 repeated_api
          = inr ([repeated_old_row] ++ repeated_new_row ::
                 [repeated_other_row])) as H1 by reflexivity.
  assert (returns (fetch_standings repeated_api) repeated_standings) as H2.
  { exists empty_world, (fetch_standings repeated_api empty_world).2.
    vm_compute. reflexivity. }
  assert (∀ row', row' ∈ [repeated_other_row] →
                  TEAMID row' ≠ TEAMID repeated_new_row) as H3.
  { apply Forall_forall. repeat constructor. vm_compute. discriminate. }
  split; [exact H1|]. split; [exact H2|]. split; [exact H3|].
  exact (fetch_standings_last_row_wins repeated_api _ _ _ _ H1 H2 H3).
Defined.

(** X4: when the team ids of the standings response are pairwise distinct,
    the dict has one entry per row, keyed by the ids in the order of the
    rows. *)
Theorem fetch_standings_distinct_ids (api : nba_api) df standings :
  LeagueStandingsV3 api = inr df →
  returns (fetch_standings api) standings →
  NoDup (TEAMID <$> df) →
  dict_keys standings = (λ row, str_of_int (TEAMID row)) <$> df ∧
  dict_len standings = length df.
Proof.
  intros Hapi (df' & Hdf & Hloop)%fetch_standings_returns Hnodup.
  rewrite Hapi in Hdf. injection Hdf as <-.
  pose proof (loop_keys_distinct TEAMID standing_of_row fetch_standings_loop
                (λ _, eq_refl) fetch_standings_loop_cons _ _ _ Hloop Hnodup)
    as Hkeys.
  rewrite Hkeys by (intros; apply not_elem_of_nil). split; [done|].
  unfold dict_len. rewrite <-(length_fmap fst standings).
  change (standings.*1) with (dict_keys standings).
  rewrite Hkeys by (intros; apply not_elem_of_nil).
  simpl. by rewrite length_fmap.
Qed.

Lemma fetch_standings_distinct_ids_witness :
  LeagueStandingsV3 sample_api = inr sample_standings_df ∧
  returns (fetch_standings sample_api) sample_standings ∧
  NoDup (TEAMID <$> sample_standings_df) ∧
  dict_keys sample_standings
  = (λ row, str_of_int (TEAMID row)) <$> sample_standings_df ∧
  dict_len sample_standings = length sample_standings_df.
Proof.
  assert (LeagueStandingsV3 sample_api = inr sample_standings_df) as H1
    by reflexivity.
  assert (returns (fetch_standings sample_api) sample_standings) as H2.
  { exists empty_world, (fetch_standings sample_api empty_world).2.
    vm_compute. reflexivity. }
  assert (NoDup (TEAMID <$> sample_standings_df)) as H3
    by (apply (bool_decide_unpack _); vm_compute; exact I).
  split; [exact H1|]. split; [exact H2|]. split; [exact H3|].
  exact (fetch_standings_distinct_ids sample_api _ _ H1 H2 H3).
Defined.

(** X5: when the standings endpoint answers with rows whose wins and losses
    are not negative, [fetch_standings] returns: it requests the endpoint
    once, prints its two progress lines, the second with the number of teams,
    and gives a dict of at most one entry per row with distinct keys whose
    win percentages all lie between [0.0] and [1.0]. *)
Theorem fetch_standings_total (api : nba_api) df (w : world) :
  LeagueStandingsV3 api = inr df →
  (∀ row, row ∈ df → 0 ≤ WINS row ∧ 0 ≤ LOSSES row) →
  ∃ standings,
    fetch_standings api w
    = (inr standings,
       World (stdout w ++
              [ "  [1/2] Fetching standings for 2025-26...";
                "  ✓ Standings fetched — " +:+
                str_of_int (Z.of_nat (dict_len standings)) +:+ " teams" ])
             (files w) (api_calls w ++ ["leaguestandingsv3"])) ∧
    dict_wf standings ∧
    (dict_len standings ≤ length df)%nat ∧
    ∀ k s, dict_get k standings = Some s → float_in_unit (st_W_PCT s).
Proof.
  intros Hapi Hrows.
  destruct (loop_total TEAMID standing_of_row fetch_standings_loop
              (λ _, eq_refl) fetch_standings_loop_cons df []) as [st Hloop].
  { intros row [Hw Hl]%Hrows.
    destruct (w_pct_in_unit _ _ Hw Hl) as (r & Hr & _).
    unfold standing_of_row. rewrite Hr. by eexists. }
  exists st. split; [|split; [|split]].
  - rewrite fetch_standings_run, Hapi, Hloop. cbv beta iota zeta.
    unfold printed. cbn [stdout files api_calls].
    by rewrite <-app_assoc.
  - eapply fetch_standings_loop_wf; [|exact Hloop]. apply NoDup_nil_2.
  - by apply fetch_standings_loop_length in Hloop.
  - intros k s Hget%dict_get_elem_of.
    destruct (loop_items_from TEAMID standing_of_row fetch_standings_loop
                (λ _, eq_refl) fetch_standings_loop_cons _ _ _ _ _ Hloop Hget)
      as [Hnil|(row & Hin & (r & Hr & ->)%standing_of_row_inr)].
    { by apply elem_of_nil in Hnil. }
    destruct (Hrows row Hin) as [Hw Hl].
    destruct (w_pct_in_unit _ _ Hw Hl) as (r' & Hr' & Hunit).
    rewrite Hr in Hr'. injection Hr' as ->. exact Hunit.
Qed.

Lemma fetch_standings_total_witness :
  LeagueStandingsV3 sample_api = inr sample_standings_df ∧
  (∀ row, row ∈ sample_standings_df → 0 ≤ WINS row ∧ 0 ≤ LOSSES row) ∧
  ∃ standings,
    fetch_standings sample_api empty_world
    = (inr standings,
       World (stdout empty_world ++
              [ "  [1/2] Fetching standings for 2025-26...";
                "  ✓ Standings fetched — " +:+
                str_of_int (Z.of_nat (dict_len standings)) +:+ " teams" ])
             (files empty_world)
             (api_calls empty_world ++ ["leaguestandingsv3"])) ∧
    dict_wf standings ∧
    (dict_len standings ≤ length sample_standings_df)%nat ∧
    ∀ k s, dict_get k standings = Some s → float_in_unit (st_W_PCT s).
Proof.
  assert (LeagueStandingsV3 sample_api = inr sample_standings_df) as H1
    by reflexivity.
  assert (∀ row, row ∈ sample_standings_df → 0 ≤ WINS row ∧ 0 ≤ LOSSES row)
    as H2 by exact sample_standings_df_nonneg.
  split; [exact H1|]. split; [exact H2|].
  exact (fetch_standings_total sample_api _ empty_world H1 H2).
Defined.

(** A finite float of magnitude at most [2^c], as a fraction. *)
Lemma float_frac_below (c : Z) (m : positive) (e : Z) :
  0 ≤ c → below_pow2 c (Zpos m) e →
  0 < (float_frac m e).1 ∧ 0 < (float_frac m e).2 ∧
  (float_frac m e).1 ≤ 2 ^ c * (float_frac m e).2.
Proof.
  intros Hc (_ & He & Hm). unfold float_frac.
  destruct (Z.leb_spec 0 e) as [He0|He0]; cbn [fst snd].
  - assert (0 < 2 ^ e) by (apply Z.pow_pos_nonneg; lia).
    assert (2 ^ c = 2 ^ (c - e) * 2 ^ e) as ->.
    { rewrite <-Z.pow_add_r by lia. f_equal. lia. }
    repeat split; nia.
  - assert (0 < 2 ^ (- e)) by (apply Z.pow_pos_nonneg; lia).
    assert (2 ^ (c - e) = 2 ^ c * 2 ^ (- e)) as Heq.
    { rewrite <-Z.pow_add_r by lia. f_equal. }
    repeat split; lia.
Qed.

(** Rounding a float of moderate size to one or more decimals never
    raises. *)
Lemma float_round_moderate (x : float) (ndigits : Z) :
  0 < ndigits ≤ NDIGITS_MAX → float_moderate x →
  ∃ r, float_round x ndigits = inr r.
Proof.
  intros [Hn Hmax] Hx. destruct x as [s|s| |s m e]; try by eexists.
  unfold float_round.
  replace (ndigits >? NDIGITS_MAX) with false by (symmetry; lia).
  replace (ndigits <? NDIGITS_MIN) with false
    by (symmetry; unfold NDIGITS_MIN; lia).
  replace (0 <=? ndigits) with true by (symmetry; lia).
  destruct (float_frac_below 970 m e ltac:(done) Hx) as (Hnum & Hden & Hle).
  destruct (float_frac m e) as [num den]. cbn [fst snd] in *.
  unfold float_of_decimal.
  replace (0 <=? - ndigits) with false by (symmetry; lia).
  rewrite Z.opp_involutive.
  assert (0 < 10 ^ ndigits) as Hp10 by (apply Z.pow_pos_nonneg; lia).
  assert (0 < 2 ^ 970) as Hp2 by (by apply Z.pow_pos_nonneg).
  set (k := round_half_even (num * 10 ^ ndigits) den).
  assert (0 ≤ k ≤ 2 ^ 971 * 10 ^ ndigits) as Hk.
  { pose proof (round_half_even_bounds (num * 10 ^ ndigits) den
                  ltac:(nia) Hden) as Hb. fold k in Hb.
    assert (num * 10 ^ ndigits / den ≤ 2 ^ 970 * 10 ^ ndigits).
    { apply Z.div_le_upper_bound; [done|]. nia. }
    replace (2 ^ 971) with (2 * 2 ^ 970)
      by (by rewrite <-Z.pow_succ_r by lia).
    nia. }
  pose proof (float_of_ratio_tight 971 s k (10 ^ ndigits)
                ltac:(lia) ltac:(lia) ltac:(lia) Hp10 ltac:(lia)) as Hr.
  destruct (float_of_ratio s k (10 ^ ndigits)); try done; by eexists.
Qed.

Lemma advanced_of_row_inr row r :
  advanced_of_row row = inr r ↔
  float_round (df_OFF_RATING row) 1 = inr (adv_OFF_RATING r) ∧
  float_round (df_DEF_RATING row) 1 = inr (adv_DEF_RATING r) ∧
  float_round (df_NET_RATING row) 1 = inr (adv_NET_RATING r) ∧
  float_round (df_AST_PCT row) 3 = inr (adv_AST_PCT r) ∧
  float_round (df_REB_PCT row) 3 = inr (adv_REB_PCT r) ∧
  float_round (df_TS_PCT row) 3 = inr (adv_TS_PCT r) ∧
  float_round (df_PACE row) 2 = inr (adv_PACE r).
Proof.
  unfold advanced_of_row. split.
  - repeat match goal with
    | |- context [float_round ?x ?n] =>
        destruct (float_round x n) as [?|?]; [done|]; simpl
    end.
    by intros [= <-].
  - intros (-> & -> & -> & -> & -> & -> & ->). by destruct r.
Qed.

(** X6: under a team id, [fetch_advanced_stats] stores the metrics of the
    last row of the response with that id, the three ratings rounded to one
    decimal, the three percentages to three and the pace to two. *)
Theorem fetch_advanced_stats_rounds (api : nba_api) df1 row df2 stats :
  LeagueDashTeamStats api = inr (df1 ++ row :: df2) →
  returns (fetch_advanced_stats api) stats →
  (∀ row', row' ∈ df2 → df_TEAM_ID row' ≠ df_TEAM_ID row) →
  ∃ r, dict_get (str_of_int (df_TEAM_ID row)) stats = Some r ∧
       float_round (df_OFF_RATING row) 1 = inr (adv_OFF_RATING r) ∧
       float_round (df_DEF_RATING row) 1 = inr (adv_DEF_RATING r) ∧
       float_round (df_NET_RATING row) 1 = inr (adv_NET_RATING r) ∧
       float_round (df_AST_PCT row) 3 = inr (adv_AST_PCT r) ∧
       float_round (df_REB_PCT row) 3 = inr (adv_REB_PCT r) ∧
       float_round (df_TS_PCT row) 3 = inr (adv_TS_PCT r) ∧
       float_round (df_PACE row) 2 = inr (adv_PACE r).
Proof.
  intros Hapi (df & Hdf & Hloop)%fetch_advanced_stats_returns Hlast.
  rewrite Hapi in Hdf. injection Hdf as <-.
  destruct (loop_last_row_wins df_TEAM_ID advanced_of_row
              fetch_advanced_stats_loop (λ _, eq_refl)
              fetch_advanced_stats_loop_cons _ _ _ _ _ Hloop Hlast)
    as (r & Hr%advanced_of_row_inr & Hget).
  by exists r.
Qed.

Lemma fetch_advanced_stats_rounds_witness :
  LeagueDashTeamStats sample_api
  = inr ([sample_stats_row 3 (float_lit 245 (-2))] ++
         sample_stats_row 4 (float_lit 1 0) ::
         [sample_stats_row 1 (float_lit 49 (-1))]) ∧
  returns (fetch_advanced_stats sample_api) sample_advanced ∧
  (∀ row', row' ∈ [sample_stats_row 1 (float_lit 49 (-1))] →
           df_TEAM_ID row' ≠ df_TEAM_ID (sample_stats_row 4 (float_lit 1 0))) ∧
  ∃ r, dict_get
         (str_of_int (df_TEAM_ID (sample_stats_row 4 (float_lit 1 0))))
         sample_advanced = Some r ∧
       float_round (df_OFF_RATING (sample_stats_row 4 (float_lit 1 0))) 1
       = inr (adv_OFF_RATING r) ∧
       float_round (df_DEF_RATING (sample_stats_row 4 (float_lit 1 0))) 1
       = inr (adv_DEF_RATING r) ∧
       float_round (df_NET_RATING (sample_stats_row 4 (float_lit 1 0))) 1
       = inr (adv_NET_RATING r) ∧
       float_round (df_AST_PCT (sample_stats_row 4 (float_lit 1 0))) 3
       = inr (adv_AST_PCT r) ∧
       float_round (df_REB_PCT (sample_stats_row 4 (float_lit 1 0))) 3
       = inr (adv_REB_PCT r) ∧
       float_round (df_TS_PCT (sample_stats_row 4 (float_lit 1 0))) 3
       = inr (adv_TS_PCT r) ∧
       float_round (df_PACE (sample_stats_row 4 (float_lit 1 0))) 2
       = inr (adv_PACE r).
Proof.
  assert (LeagueDashTeamStats sample_api
          = inr ([sample_stats_row 3 (float_lit 245 (-2))] ++
                 sample_stats_row 4 (float_lit 1 0) ::
                 [sample_stats_row 1 (float_lit 49 (-1))])) as H1
    by reflexivity.
  assert (returns (fetch_advanced_stats sample_api) sample_advanced) as H2.
  { exists empty_world, (fetch_advanced_stats sample_api empty_world).2.
    vm_compute. reflexivity. }
  assert (∀ row', row' ∈ [sample_stats_row 1 (float_lit 49 (-1))] →
                  df_TEAM_ID row'
                  ≠ df_TEAM_ID (sample_stats_row 4 (float_lit 1 0))) as H3.
  { apply Forall_forall. repeat constructor. vm_compute. discriminate. }
  split; [exact H1|]. split; [exact H2|]. split; [exact H3|].
  exact (fetch_advanced_stats_rounds sample_api _ _ _ _ H1 H2 H3).
Defined.

(** X7: when the stats endpoint answers with metrics that are not finite or
    of magnitude at most [2^970], [fetch_advanced_stats] returns: no rounding
    overflows.  It requests the endpoint once, prints its two progress lines
    and gives a dict with distinct keys and at most one entry per row. *)
Theorem fetch_advanced_stats_total (api : nba_api) df (w : world) :
  LeagueDashTeamStats api = inr df →
  (∀ row, row ∈ df → stats_row_moderate row) →
  ∃ stats,
    fetch_advanced_stats api w
    = (inr stats,
       World (stdout w ++
              [ "  [2/2] Fetching advanced stats for 2025-26...";
                "  ✓ Advanced stats fetched — " +:+
                str_of_int (Z.of_nat (dict_len stats)) +:+ " teams" ])
             (files w) (api_calls w ++ ["leaguedashteamstats"])) ∧
    dict_wf stats ∧
    (dict_len stats ≤ length df)%nat.
Proof.
  intros Hapi Hrows.
  destruct (loop_total df_TEAM_ID advanced_of_row fetch_advanced_stats_loop
              (λ _, eq_refl) fetch_advanced_stats_loop_cons df [])
    as [st Hloop].
  { intros row (H1 & H2 & H3 & H4 & H5 & H6 & H7)%Hrows.
    unfold advanced_of_row.
    destruct (float_round_moderate _ 1 ltac:(done) H1) as [? ->].
    destruct (float_round_moderate _ 1 ltac:(done) H2) as [? ->].
    destruct (float_round_moderate _ 1 ltac:(done) H3) as [? ->].
    destruct (float_round_moderate _ 3 ltac:(done) H4) as [? ->].
    destruct (float_round_moderate _ 3 ltac:(done) H5) as [? ->].
    destruct (float_round_moderate _ 3 ltac:(done) H6) as [? ->].
    destruct (float_round_moderate _ 2 ltac:(done) H7) as [? ->].
    by eexists. }
  exists st. split; [|split].
  - rewrite fetch_advanced_stats_run, Hapi, Hloop. cbv beta iota zeta.
    unfold printed. cbn [stdout files api_calls].
    by rewrite <-app_assoc.
  - eapply fetch_advanced_stats_loop_wf; [|exact Hloop]. apply NoDup_nil_2.
  - by apply fetch_advanced_stats_loop_length in Hloop.
Qed.

Lemma fetch_advanced_stats_total_witness :
  LeagueDashTeamStats sample_api = inr sample_stats_df ∧
  (∀ row, row ∈ sample_stats_df → stats_row_moderate row) ∧
  ∃ stats,
    fetch_advanced_stats sample_api empty_world
    = (inr stats,
       World (stdout empty_world ++
              [ "  [2/2] Fetching advanced stats for 2025-26...";
                "  ✓ Advanced stats fetched — " +:+
                str_of_int (Z.of_nat (dict_len stats)) +:+ " teams" ])
             (files empty_world)
             (api_calls empty_world ++ ["leaguedashteamstats"])) ∧
    dict_wf stats ∧
    (dict_len stats ≤ length sample_stats_df)%nat.
Proof.
  assert (LeagueDashTeamStats sample_api = inr sample_stats_df) as H1
    by reflexivity.
  assert (∀ row, row ∈ sample_stats_df → stats_row_moderate row) as H2
    by exact sample_stats_df_moderate.
  split; [exact H1|]. split; [exact H2|].
  exact (fetch_advanced_stats_total sample_api _ empty_world H1 H2).
Defined.

(** ** build_rows: completeness, stability and what it does not depend on *)

(** X8: every standings entry whose team has advanced stats gives a row:
    the merge of the entry with the advanced stats of its team is among the
    rows returned. *)
Theorem build_rows_complete standings advanced (w : world) tid s adv :
  (tid, s) ∈ standings →
  dict_get tid advanced = Some adv →
  ∃ rows w',
    build_rows standings advanced w = (inr rows, w') ∧
    merge_row tid s adv ∈ rows.
Proof.
  intros Hin Hadv. eexists _, _. split; [apply build_rows_run|].
  apply elem_of_build_rows, elem_of_joined. by exists tid, s, adv.
Qed.

Lemma build_rows_complete_witness :
  ("3", {| st_TEAM_NAME := "Bulls"; st_W_PCT := float_lit 25 (-2) |})
    ∈ sample_standings ∧
  dict_get "3" sample_advanced = Some (sample_record (float_lit 25 (-1))) ∧
  ∃ rows w',
    build_rows sample_standings sample_advanced empty_world = (inr rows, w') ∧
    merge_row "3" {| st_TEAM_NAME := "Bulls"; st_W_PCT := float_lit 25 (-2) |}
      (sample_record (float_lit 25 (-1))) ∈ rows.
Proof.
  assert (("3", {| st_TEAM_NAME := "Bulls"; st_W_PCT := float_lit 25 (-2) |})
            ∈ sample_standings) as H1
    by (do 2 apply list_elem_of_further; apply list_elem_of_here).
  assert (dict_get "3" sample_advanced
          = Some (sample_record (float_lit 25 (-1)))) as H2 by reflexivity.
  split; [exact H1|]. split; [exact H2|].
  exact (build_rows_complete sample_standings sample_advanced empty_world
           _ _ _ H1 H2).
Defined.

(** X9: the sort is stable: the rows that have the same team name come in
    the order in which their teams are in [standings]. *)
Theorem build_rows_stable standings advanced (w : world) :
  ∃ rows w',
    build_rows standings advanced w = (inr rows, w') ∧
    ∀ name,
      (TEAM_ID <$> filter (λ r, TEAM_NAME r = name) rows)
      `sublist_of` dict_keys standings.
Proof.
  eexists _, _. split; [apply build_rows_run|]. intros name.
  rewrite (list_sort_stable TEAM_NAME).
  trans (TEAM_ID <$> joined standings advanced).
  - apply fmap_sublist, sublist_filter.
  - rewrite joined_team_ids. apply sublist_filter.
Qed.

Lemma joined_unmatched_length standings advanced :
  (length (joined standings advanced) + length (unmatched standings advanced)
   = length standings)%nat.
Proof.
  unfold joined, unmatched.
  induction standings as [|[tid s] standings IH]; [done|].
  rewrite filter_cons. cbn [omap list_omap]. unfold join_item at 1.
  cbn [fst snd].
  destruct (dict_get tid advanced) as [adv|] eqn:Hget; cbn [fmap option_fmap option_map].
  - rewrite decide_False.
    + cbn [length]. rewrite <-IH. reflexivity.
    + intros Hnot. apply Hnot, dict_get_is_Some. eauto.
  - rewrite decide_True by (by apply dict_get_None).
    cbn [length]. rewrite <-IH. lia.
Qed.

(** X10: every standings entry gives either one row or one warning: the
    rows returned and the warnings printed are together as many as the
    entries of [standings], and nothing but the warnings is printed. *)
Theorem build_rows_accounts_for_all standings advanced (w : world) :
  ∃ rows warnings,
    build_rows standings advanced w = (inr rows, printed warnings w) ∧
    (length rows + length warnings = dict_len standings)%nat.
Proof.
  eexists _, _. split; [apply build_rows_run|].
  rewrite (list_sort_Permutation TEAM_NAME), !length_fmap.
  apply joined_unmatched_length.
Qed.

(** [build_rows] looks at [advanced] only under the keys of [standings]. *)
Lemma build_rows_ext standings advanced advanced' (w : world) :
  (∀ tid, tid ∈ dict_keys standings →
          dict_get tid advanced' = dict_get tid advanced) →
  build_rows standings advanced' w = build_rows standings advanced w.
Proof.
  intros Hext. rewrite !build_rows_run.
  assert (joined standings advanced' = joined standings advanced ∧
          unmatched standings advanced' = unmatched standings advanced)
    as [-> ->]; [|done].
  unfold joined, unmatched, dict_keys in *.
  induction standings as [|[tid s] standings IH]; [done|].
  destruct IH as [IH1 IH2].
  { intros k Hk. by apply Hext, list_elem_of_further. }
  specialize (Hext tid (list_elem_of_here _ _)).
  split.
  - assert (join_item advanced' (tid, s) = join_item advanced (tid, s)) as Hj
      by (unfold join_item; cbn [fst snd]; by rewrite Hext).
    change (match join_item advanced' (tid, s) with
            | Some y => y :: omap (join_item advanced') standings
            | None => omap (join_item advanced') standings
            end
            = match join_item advanced (tid, s) with
              | Some y => y :: omap (join_item advanced) standings
              | None => omap (join_item advanced) standings
              end).
    by rewrite Hj, IH1.
  - rewrite !filter_cons, IH2. cbn [fst].
    assert (tid ∈ advanced'.*1 ↔ tid ∈ advanced.*1) as Hiff.
    { change (tid ∈ dict_keys advanced' ↔ tid ∈ dict_keys advanced).
      by rewrite <-!dict_get_is_Some, Hext. }
    destruct (decide (tid ∉ advanced'.*1)), (decide (tid ∉ advanced.*1));
      tauto.
Qed.

Lemma dict_get_app_l {V} (k : string) (d1 d2 : dict V) :
  k ∉ dict_keys d2 → dict_get k (d1 ++ d2) = dict_get k d1.
Proof.
  intros Hk%dict_get_None. induction d1 as [|[k' v] d1 IH]; simpl; [done|].
  by destruct (decide (k = k')).
Qed.

(** X11: advanced stats of teams that are not in [standings] change
    nothing: no row, no warning. *)
Theorem build_rows_ignores_other_teams standings advanced extra (w : world) :
  (∀ tid, tid ∈ dict_keys extra → tid ∉ dict_keys standings) →
  build_rows standings (advanced ++ extra) w = build_rows standings advanced w.
Proof.
  intros Hextra. apply build_rows_ext. intros tid Hin.
  apply dict_get_app_l. intros Hin'. by apply (Hextra tid).
Qed.

Lemma build_rows_ignores_other_teams_witness :
  (∀ tid, tid ∈ dict_keys sample_extra → tid ∉ dict_keys sample_standings) ∧
  build_rows sample_standings (sample_advanced ++ sample_extra) empty_world
  = build_rows sample_standings sample_advanced empty_world.
Proof.
  assert (∀ tid, tid ∈ dict_keys sample_extra →
                 tid ∉ dict_keys sample_standings) as H1.
  { apply Forall_forall. repeat constructor.
    apply (bool_decide_unpack _). vm_compute. exact I. }
  split; [exact H1|].
  exact (build_rows_ignores_other_teams sample_standings sample_advanced
           sample_extra empty_world H1).
Defined.

Lemma dict_get_Permutation {V} (k : string) (d d' : dict V) :
  dict_wf d → d ≡ₚ d' → dict_get k d' = dict_get k d.
Proof.
  intros Hwf Hperm.
  assert (dict_wf d') as Hwf'.
  { unfold dict_wf, dict_keys in *. by rewrite <-Hperm. }
  destruct (dict_get k d) as [v|] eqn:Hget.
  - apply dict_wf_get; [done|]. rewrite <-Hperm. by apply dict_get_elem_of.
  - apply dict_get_None. apply dict_get_None in Hget.
    unfold dict_keys in *. by rewrite <-Hperm.
Qed.

(** X12: the order of the entries of the advanced-stats mapping does not
    matter. *)
Theorem build_rows_advanced_order standings advanced advanced' (w : world) :
  dict_wf advanced → advanced ≡ₚ advanced' →
  build_rows standings advanced' w = build_rows standings advanced w.
Proof.
  intros Hwf Hperm. apply build_rows_ext. intros tid _.
  by apply dict_get_Permutation.
Qed.

Lemma build_rows_advanced_order_witness :
  dict_wf sample_advanced ∧ sample_advanced ≡ₚ reverse sample_advanced ∧
  build_rows sample_standings (reverse sample_advanced) empty_world
  = build_rows sample_standings sample_advanced empty_world.
Proof.
  assert (dict_wf sample_advanced) as H1
    by (apply (bool_decide_unpack _); vm_compute; exact I).
  assert (sample_advanced ≡ₚ reverse sample_advanced) as H2
    by (symmetry; apply reverse_Permutation).
  split; [exact H1|]. split; [exact H2|].
  exact (build_rows_advanced_order sample_standings sample_advanced
           (reverse sample_advanced) empty_world H1 H2).
Defined.

Lemma NoDup_fmap_eq {A B} (f : A → B) (l : list A) (x y : A) :
  NoDup (f <$> l) → x ∈ l → y ∈ l → f x = f y → x = y.
Proof.
  induction l as [|z l IH]; csimpl; [by intros _ ?%elem_of_nil|].
  intros [Hz Hl]%NoDup_cons [->|Hx]%elem_of_cons [->|Hy]%elem_of_cons Heq;
    [done| | |by apply IH].
  - exfalso. apply Hz. rewrite Heq. by apply list_elem_of_fmap_2.
  - exfalso. apply Hz. rewrite <-Heq. by apply list_elem_of_fmap_2.
Qed.

(** X13: when the team names in [standings] are pairwise distinct, the rows
    returned do not depend on the order of its entries. *)
Theorem build_rows_standings_order standings standings' advanced
    (w : world) :
  NoDup ((λ item, st_TEAM_NAME item.2) <$> standings) →
  standings ≡ₚ standings' →
  (build_rows standings' advanced w).1 = (build_rows standings advanced w).1.
Proof.
  intros Hnames Hperm. rewrite !build_rows_run. cbn [fst]. f_equal.
  apply (StronglySorted_unique_strong name_le).
  - intros r1 r2 Hr1 Hr2 H12 H21.
    apply elem_of_build_rows in Hr1. apply elem_of_build_rows in Hr2.
    unfold joined in Hr1. rewrite <-Hperm in Hr1.
    apply elem_of_joined in Hr1 as (tid1 & s1 & a1 & Hin1 & Ha1 & ->).
    apply elem_of_joined in Hr2 as (tid2 & s2 & a2 & Hin2 & Ha2 & ->).
    assert (st_TEAM_NAME s1 = st_TEAM_NAME s2) as Hname
      by (by apply (anti_symm String.le)).
    assert ((tid1, s1) = (tid2, s2)) as [= -> ->].
    { by apply (NoDup_fmap_eq (λ item, st_TEAM_NAME item.2) standings). }
    rewrite Ha1 in Ha2. by injection Ha2 as ->.
  - apply (list_sort_sorted TEAM_NAME).
  - apply (list_sort_sorted TEAM_NAME).
  - rewrite !(list_sort_Permutation TEAM_NAME). unfold joined.
    by rewrite Hperm.
Qed.

Lemma build_rows_standings_order_witness :
  NoDup ((λ item, st_TEAM_NAME item.2) <$> sample_standings) ∧
  sample_standings ≡ₚ reverse sample_standings ∧
  (build_rows (reverse sample_standings) sample_advanced empty_world).1
  = (build_rows sample_standings sample_advanced empty_world).1.
Proof.
  assert (NoDup ((λ item, st_TEAM_NAME item.2) <$> sample_standings)) as H1
    by (apply (bool_decide_unpack _); vm_compute; exact I).
  assert (sample_standings ≡ₚ reverse sample_standings) as H2
    by (symmetry; apply reverse_Permutation).
  split; [exact H1|]. split; [exact H2|].
  exact (build_rows_standings_order sample_standings
           (reverse sample_standings) sample_advanced empty_world H1 H2).
Defined.

(** ** write_csv and preview: what they touch *)


Lemma print_each_run (lines : list string) (w : world) :
  print_each lines w = (inr (), printed lines w).
Proof.
  revert w. induction lines as [|s lines IH]; intros w; simpl.
  - by rewrite printed_nil.
  - unfold mbind, M_bind. rewrite print_run, IH. by rewrite printed_app.
Qed.

Lemma preview_run rows (w : world) :
  preview rows w = (inr (), printed (preview_lines rows) w).
Proof.
  unfold preview, preview_lines, preview_header.
  unfold mbind at 1 2 3, M_bind.
  rewrite !print_run, print_each_run, !printed_app.
  destruct (5 <? length rows)%nat.
  - rewrite print_run, printed_app. by rewrite <-!app_assoc.
  - unfold mret, M_ret. by rewrite app_nil_r.
Qed.

(** X15: [preview] prints the two header lines, one line for each of the
    first five rows and, when there are more than five rows, one line that
    says how many more: at most eight lines.  It changes no file and requests
    no endpoint. *)
Theorem preview_prints rows (w : world) :
  ∃ lines,
    preview rows w = (inr (), printed lines w) ∧
    length lines
    = (2 + length rows `min` 5 + (if (5 <? length rows)%nat then 1 else 0))%nat ∧
    (length lines ≤ 8)%nat ∧
    (∀ i r, (i < 5)%nat → rows !! i = Some r →
            lines !! (2 + i)%nat = Some (preview_line r)) ∧
    ((5 < length rows)%nat →
     last lines
     = Some ("  ... and " +:+ str_of_int (Z.of_nat (length rows) - 5) +:+
             " more teams")).
Proof.
  exists (preview_lines rows). split; [apply preview_run|].
  unfold preview_lines.
  assert (length (preview_line <$> take 5 rows) = length rows `min` 5)%nat
    as Hlen by (by rewrite length_fmap, length_take, Nat.min_comm).
  split; [|split; [|split]].
  - rewrite !length_app, Hlen. cbn [length].
    destruct (5 <? length rows)%nat; cbn [length]; lia.
  - rewrite !length_app, Hlen. cbn [length].
    destruct (5 <? length rows)%nat; cbn [length]; lia.
  - intros i r Hi Hr.
    change (([?a; ?b] ++ ?rest) !! (2 + i)%nat) with (rest !! i).
    rewrite lookup_app_l by (rewrite Hlen; apply lookup_lt_Some in Hr; lia).
    by rewrite list_lookup_fmap, lookup_take_lt, Hr by done.
  - intros Hmore.
    replace (5 <? length rows)%nat with true by (symmetry; by apply Nat.ltb_lt).
    by rewrite !app_assoc, last_snoc.
Qed.

Lemma str_len_app (a b : string) :
  str_len (a +:+ b) = (str_len a + str_len b)%nat.
Proof.
  induction a as [|c a IH]; [done|].
  rewrite str_app_cons. cbn [str_len]. rewrite IH. lia.
Qed.

Lemma str_len_spaces (n : nat) : str_len (str_repeat " " n) = n.
Proof.
  induction n as [|n IH]; [done|].
  cbn [str_repeat]. rewrite str_len_app, IH. reflexivity.
Qed.

Lemma str_len_ljust (s : string) (width : nat) :
  str_len (str_ljust s width) = (str_len s `max` width)%nat.
Proof. unfold str_ljust. rewrite str_len_app, str_len_spaces. lia. Qed.

Lemma str_len_rjust (s : string) (width : nat) :
  str_len (str_rjust s width) = (str_len s `max` width)%nat.
Proof. unfold str_rjust. rewrite str_len_app, str_len_spaces. lia. Qed.

Lemma preview_line_len (r : MergedRow) :
  str_len (preview_line r)
  = (9 + str_len (TEAM_NAME r) `max` 32 +
     str_len (float_repr (W_PCT r)) `max` 5 +
     str_len (float_repr (NET_RATING r)) `max` 5 +
     str_len (float_repr (DEF_RATING r)) `max` 5 +
     str_len (float_repr (PACE r)) `max` 5)%nat.
Proof.
  unfold preview_line, float_rjust5.
  rewrite !str_len_app, str_len_ljust, !str_len_rjust.
  change (str_len "  ") with 2%nat. change (str_len " ") with 1%nat. lia.
Qed.

(** X16: the table [preview] prints is aligned: the line of a row whose team
    name has at most 32 characters and whose four numbers print in at most 5
    characters is exactly as wide as the header line, 61 characters. *)
Theorem preview_line_aligned (r : MergedRow) :
  (str_len (TEAM_NAME r) ≤ 32)%nat →
  (str_len (float_repr (W_PCT r)) ≤ 5)%nat →
  (str_len (float_repr (NET_RATING r)) ≤ 5)%nat →
  (str_len (float_repr (DEF_RATING r)) ≤ 5)%nat →
  (str_len (float_repr (PACE r)) ≤ 5)%nat →
  str_len (preview_line r) = 61%nat ∧ str_len preview_header = 61%nat.
Proof.
  intros. split; [rewrite preview_line_len; lia|].
  vm_compute. reflexivity.
Qed.

Lemma preview_line_aligned_witness :
  (str_len (TEAM_NAME sample_row) ≤ 32)%nat ∧
  (str_len (float_repr (W_PCT sample_row)) ≤ 5)%nat ∧
  (str_len (float_repr (NET_RATING sample_row)) ≤ 5)%nat ∧
  (str_len (float_repr (DEF_RATING sample_row)) ≤ 5)%nat ∧
  (str_len (float_repr (PACE sample_row)) ≤ 5)%nat ∧
  str_len (preview_line sample_row) = 61%nat ∧
  str_len preview_header = 61%nat.
Proof.
  assert (str_len (TEAM_NAME sample_row) ≤ 32)%nat as H1
    by (vm_compute; lia).
  assert (str_len (float_repr (W_PCT sample_row)) ≤ 5)%nat as H2
    by (vm_compute; lia).
  assert (str_len (float_repr (NET_RATING sample_row)) ≤ 5)%nat as H3
    by (vm_compute; lia).
  assert (str_len (float_repr (DEF_RATING sample_row)) ≤ 5)%nat as H4
    by (vm_compute; lia).
  assert (str_len (float_repr (PACE sample_row)) ≤ 5)%nat as H5
    by (vm_compute; lia).
  split; [exact H1|]. split; [exact H2|]. split; [exact H3|].
  split; [exact H4|]. split; [exact H5|].
  exact (preview_line_aligned sample_row H1 H2 H3 H4 H5).
Defined.

(** ** main: the successful run and the shape of every run *)














